(** * flights_demo: the load / filter / aggregate pipeline of [app.py]

    [app.py] is a Streamlit script: it reads [flights.csv] with pandas, keeps
    the rows whose delay is present, filters them by the carrier and the month
    chosen in the sidebar, and derives six tables that are handed to the
    charting calls.  This development embeds the data path of the script
    (lines 11-88) and the decision of the sixth tab (lines 150-159).

    Modelling conventions.
    - A DataFrame with the five columns of [cols] is a list of records [row];
      a nullable cell ([Int64], [string], a [float64] that may be NaN) is an
      [option], [None] standing for the missing value.
    - [float64] delays are IEEE 754 binary64 numbers, the primitive [float]
      of Rocq, with their rounding, infinities and NaN; NaN is the missing
      value of a [float64] column.
    - The pandas calls are modelled by what they compute, step by step:
      [groupby(...).agg(mean)] collects the values of each key in row order
      and emits the groups in key order, each with the [float64] sum of its
      values divided by their number; [value_counts] tallies in order of
      first appearance and sorts by decreasing count; [nlargest] keeps the
      first entries of a stable decreasing sort; [pivot] reshapes by looking
      cells up.
    - Two things are left to pandas and are parameters here ([Library]): the
      loop that sums a group in [float64], and the sort of [value_counts],
      which is [sort_values] with its default [quicksort] and promises no
      order among equal counts. *)

From Stdlib Require Import List Bool Arith ZArith QArith String Ascii Lia.
From Stdlib Require Import Sorting.Sorted Sorting.Permutation DecimalString.
From Stdlib Require Import Floats.
From Corelib Require PrimInt63.
Import ListNotations.

Set Implicit Arguments.

Local Open Scope Z_scope.

(** ** Ordered keys

    Sorting in pandas compares integers numerically and strings by code
    point; a pair of keys is compared lexicographically. *)

Class Ordered (K : Type) := {
  cmp : K -> K -> comparison;
  cmp_eq : forall x y, cmp x y = Eq <-> x = y;
  cmp_antisym : forall x y, cmp y x = CompOpp (cmp x y);
  cmp_trans : forall x y z, cmp x y = Lt -> cmp y z = Lt -> cmp x z = Lt
}.

Definition klt {K} `{Ordered K} (x y : K) : Prop := cmp x y = Lt.

Lemma cmp_refl {K} `{Ordered K} (x : K) : cmp x x = Eq.
Proof. now apply cmp_eq. Qed.

Lemma cmp_gt_lt {K} `{Ordered K} (x y : K) : cmp x y = Gt -> cmp y x = Lt.
Proof. intros E. rewrite cmp_antisym, E. reflexivity. Qed.

Lemma klt_irrefl {K} `{Ordered K} (x : K) : ~ klt x x.
Proof. unfold klt. rewrite cmp_refl. discriminate. Qed.

#[export] Program Instance Ordered_Z : Ordered Z := {| cmp := Z.compare |}.
Next Obligation. apply Z.compare_eq_iff. Qed.
Next Obligation. apply Z.compare_antisym. Qed.
Next Obligation.
  rewrite Z.compare_lt_iff in *. lia.
Qed.

Lemma ascii_compare_refl (a : ascii) : Ascii.compare a a = Eq.
Proof. unfold Ascii.compare. apply N.compare_refl. Qed.

Lemma ascii_compare_trans (a b c : ascii) :
  Ascii.compare a b = Lt -> Ascii.compare b c = Lt -> Ascii.compare a c = Lt.
Proof.
  unfold Ascii.compare. rewrite !N.compare_lt_iff. apply N.lt_trans.
Qed.

Lemma string_compare_refl (s : string) : String.compare s s = Eq.
Proof.
  induction s as [|a s IH]; simpl; [reflexivity|].
  now rewrite ascii_compare_refl.
Qed.

Lemma string_compare_trans (s1 s2 s3 : string) :
  String.compare s1 s2 = Lt -> String.compare s2 s3 = Lt ->
  String.compare s1 s3 = Lt.
Proof.
  revert s2 s3.
  induction s1 as [|a s1 IH]; intros [|b s2] [|c s3]; simpl;
    try congruence.
  destruct (Ascii.compare a b) eqn:Eab; try discriminate;
    destruct (Ascii.compare b c) eqn:Ebc; try discriminate; intros H12 H23.
  - apply Ascii.compare_eq_iff in Eab, Ebc. subst.
    rewrite ascii_compare_refl. eauto.
  - apply Ascii.compare_eq_iff in Eab. subst. now rewrite Ebc.
  - apply Ascii.compare_eq_iff in Ebc. subst. now rewrite Eab.
  - now rewrite (ascii_compare_trans _ _ _ Eab Ebc).
Qed.

#[export] Program Instance Ordered_string : Ordered string :=
  {| cmp := String.compare |}.
Next Obligation.
  split; [apply String.compare_eq_iff|].
  intros ->. apply string_compare_refl.
Qed.
Next Obligation. apply String.compare_antisym. Qed.
Next Obligation. eapply string_compare_trans; eassumption. Qed.

(** Lexicographic comparison of a pair of keys, as [groupby] on two columns
    orders its groups. *)
Definition cmp_pair {A B} `{Ordered A} `{Ordered B} (p q : A * B) : comparison :=
  match cmp (fst p) (fst q) with
  | Eq => cmp (snd p) (snd q)
  | c => c
  end.

#[export] Program Instance Ordered_pair {A B} `{Ordered A} `{Ordered B} :
  Ordered (A * B) := {| cmp := cmp_pair |}.
Next Obligation.
  unfold cmp_pair; simpl. split.
  - destruct (cmp a0 a) eqn:E; try discriminate.
    intros E'. apply cmp_eq in E, E'. now subst.
  - intros [= -> ->]. now rewrite !cmp_refl.
Qed.
Next Obligation.
  unfold cmp_pair; simpl.
  rewrite (cmp_antisym a0 a). destruct (cmp a0 a); simpl; auto.
  apply cmp_antisym.
Qed.
Next Obligation.
  unfold cmp_pair in *; simpl in *.
  destruct (cmp a1 a0) eqn:E1; try discriminate;
    destruct (cmp a0 a) eqn:E2; try discriminate.
  - apply cmp_eq in E1, E2. subst. rewrite cmp_refl. eauto using cmp_trans.
  - apply cmp_eq in E1. subst. now rewrite E2.
  - apply cmp_eq in E2. subst. now rewrite E1.
  - now rewrite (cmp_trans _ _ _ E1 E2).
Qed.

(** ** Data model *)

(** One flight record, with the five columns of [cols] at the types of
    [dtypes]: [Int64] and [string] are nullable, a [float64] may be NaN.
    A delay that is NaN is [None]; [Some x] holds a [float64] that is not NaN
    (it may be infinite). *)
Record row : Type := mkRow {
  MONTH : option Z;
  DAY : option Z;
  AIRLINE : option string;
  ORIGIN_AIRPORT : option string;
  DEPARTURE_DELAY : option float
}.

Definition frame : Type := list row.

Inductive dtype : Type := Int64 | StringDtype | Float64.

Definition cols : list string :=
  ["MONTH"; "DAY"; "AIRLINE"; "ORIGIN_AIRPORT"; "DEPARTURE_DELAY"]%string.

Definition dtypes : list (string * dtype) :=
  [("MONTH", Int64); ("DAY", Int64); ("AIRLINE", StringDtype);
   ("ORIGIN_AIRPORT", StringDtype); ("DEPARTURE_DELAY", Float64)]%string.

(** What is found at the path ["flights.csv"]: nothing, something that cannot
    be opened, decoded or tokenised, or a header line followed by records of
    text fields. *)
Inductive source : Type :=
| NoFile
| Unreadable
| Csv (header : list string) (records : list (list string)).

(** The exceptions of the script.  The first five are raised by
    [pd.read_csv]: [ConversionError] stands for the exception it raises when a
    field cannot be held at the declared dtype (which field it names, and
    under which class, is not modelled).  [ValueError_reshape] is raised by
    [pivot] on duplicate entries, [ValueError_plot] by [px.bar] at line 122
    when it is given two empty sequences, [NameError] by reading a variable
    that was never assigned, [TypeError] by [sorted] when it compares a
    missing value. *)
Inductive error : Type :=
| FileNotFoundError
| ReadError
| ValueError_nrows
| ValueError_usecols (missing : list string)
| ConversionError
| ValueError_reshape
| ValueError_plot
| NameError (name : string)
| TypeError.

Definition data_source_error (e : error) : bool :=
  match e with
  | FileNotFoundError | ReadError | ValueError_nrows
  | ValueError_usecols _ | ConversionError => true
  | ValueError_reshape | ValueError_plot | NameError _ | TypeError => false
  end.

Inductive result (A : Type) : Type :=
| OK (a : A)
| Raise (e : error).
Arguments OK {A} a.
Arguments Raise {A} e.

Definition bind {A B} (m : result A) (k : A -> result B) : result B :=
  match m with
  | OK a => k a
  | Raise e => Raise e
  end.

Notation "x <- m ;; k" := (bind m (fun x => k))
  (at level 61, m at next level, right associativity).

Fixpoint mapM {A B} (f : A -> result B) (l : list A) : result (list B) :=
  match l with
  | [] => OK []
  | a :: l' => b <- f a ;; bs <- mapM f l' ;; OK (b :: bs)
  end.

(** ** The data loader (lines 11-29) *)

(** The fields that [read_csv] reads as missing by default. *)
Definition na_values : list string :=
  [EmptyString; "#N/A"; "#N/A N/A"; "#NA"; "-1.#IND"; "-1.#QNAN"; "-NaN"; "-nan";
   "1.#IND"; "1.#QNAN"; "<NA>"; "N/A"; "NA"; "NULL"; "NaN"; "None"; "n/a";
   "nan"; "null"]%string.

Definition is_na (field : string) : bool :=
  existsb (String.eqb field) na_values.

Fixpoint index_of (name : string) (header : list string) : option nat :=
  match header with
  | [] => None
  | h :: t => if String.eqb name h then Some O
              else option_map S (index_of name t)
  end.

Definition isSome {A} (o : option A) : bool :=
  match o with Some _ => true | None => false end.

(** [Series.notna()]. *)
Definition notna {A} (o : option A) : bool := isSome o.

(** A [float64] as a cell: NaN is the missing value. *)
Definition float_or_na (x : float) : option float :=
  if is_nan x then None else Some x.

(** The range of a 64-bit signed integer. *)
Definition in_int64 (z : Z) : bool :=
  (- 2 ^ 63 <=? z) && (z <? 2 ^ 63).

Section Reader.

(** The number grammar of the CSV reader: how a field that is not missing
    is read at an integer and at a floating-point column; [None] when the
    field is not a number of that kind. *)
Variable parse_int : string -> option Z.
Variable parse_float : string -> option float.

Definition to_Int64 (column field : string) : result (option Z) :=
  if is_na field then OK None
  else match parse_int field with
       | Some z => if in_int64 z then OK (Some z) else Raise ConversionError
       | None => Raise ConversionError
       end.

Definition to_string (field : string) : option string :=
  if is_na field then None else Some field.

Definition to_float64 (column field : string) : result (option float) :=
  if is_na field then OK None
  else match parse_float field with
       | Some x => OK (float_or_na x)
       | None => Raise ConversionError
       end.

(** The field of a record under a column of the header; a record that
    ends early is missing there. *)
Definition field_at (header : list string) (record : list string)
    (column : string) : string :=
  match index_of column header with
  | Some i => nth i record EmptyString
  | None => EmptyString
  end.

(** [usecols=cols, dtype=dtypes]: only the five declared columns are
    read, each at its declared type. *)
Definition convert (header : list string) (record : list string) : result row :=
  m <- to_Int64 "MONTH" (field_at header record "MONTH") ;;
  d <- to_Int64 "DAY" (field_at header record "DAY") ;;
  y <- to_float64 "DEPARTURE_DELAY" (field_at header record "DEPARTURE_DELAY") ;;
  OK {| MONTH := m;
        DAY := d;
        AIRLINE := to_string (field_at header record "AIRLINE");
        ORIGIN_AIRPORT := to_string (field_at header record "ORIGIN_AIRPORT");
        DEPARTURE_DELAY := y |}.

Definition missing_columns (header : list string) : list string :=
  filter (fun c => negb (isSome (index_of c header))) cols.

(** [pd.read_csv("flights.csv", usecols=cols, dtype=dtypes, nrows=nrows)]:
    the file is opened and its header checked against [usecols] first, then
    [nrows] is validated, then the first [nrows] records are converted. *)
Definition read_csv (src : source) (nrows : Z) : result frame :=
  match src with
  | NoFile => Raise FileNotFoundError
  | Unreadable => Raise ReadError
  | Csv header records =>
      match missing_columns header with
      | [] => if nrows <? 0 then Raise ValueError_nrows
              else mapM (convert header) (firstn (Z.to_nat nrows) records)
      | missing => Raise (ValueError_usecols missing)
      end
  end.

(** [load_data]: read, then [df[df["DEPARTURE_DELAY"].notna()]]. *)
Definition load_data (src : source) (nrows : Z) : result frame :=
  df <- read_csv src nrows ;;
  OK (filter (fun r => notna (DEPARTURE_DELAY r)) df).

Definition default_nrows : Z := 200000.

End Reader.

(** ** The filter stage (lines 50-53) *)

(** [series == scalar] on a nullable column: missing wherever either side
    is missing. *)
Definition series_eq {A} (eqb : A -> A -> bool) (column : list (option A))
    (scalar : option A) : list (option bool) :=
  map (fun x => match x, scalar with
                | Some a, Some b => Some (eqb a b)
                | _, _ => None
                end) column.

(** [&] on nullable booleans (Kleene logic). *)
Definition kleene_and (a b : option bool) : option bool :=
  match a, b with
  | Some false, _ => Some false
  | _, Some false => Some false
  | Some true, Some true => Some true
  | _, _ => None
  end.

Definition mask_and (m1 m2 : list (option bool)) : list (option bool) :=
  map (fun p => kleene_and (fst p) (snd p)) (combine m1 m2).

(** [df[mask]]: the rows at which the mask is true, in order; a missing
    entry of the mask selects nothing. *)
Fixpoint getitem_mask (df : frame) (mask : list (option bool)) : frame :=
  match df, mask with
  | r :: df', Some true :: mask' => r :: getitem_mask df' mask'
  | _ :: df', _ :: mask' => getitem_mask df' mask'
  | _, _ => []
  end.

Definition filtered (df : frame) (airline : option string) (month : option Z)
    : frame :=
  getitem_mask df
    (mask_and (series_eq String.eqb (map AIRLINE df) airline)
              (series_eq Z.eqb (map MONTH df) month)).

(** ** What the script leaves to pandas *)

Definition ge_count (x y : string * nat) : Prop := (snd y <= snd x)%nat.

(** [fsum] is the [float64] sum that [groupby(...).mean()] computes of the
    values of one group, taken in row order (a plain or a compensated loop,
    by the version of pandas).  [sort_values] is the sort that
    [value_counts] applies to its tallies: [Series.sort_values(ascending=False)]
    with the default [kind="quicksort"], which returns the tallies in
    decreasing order of count and promises nothing on the order of equal
    counts. *)
Class Library : Type := {
  fsum : list float -> float;
  sort_values : list (string * nat) -> list (string * nat);
  sort_values_perm : forall l, Permutation (sort_values l) l;
  sort_values_sorted : forall l, StronglySorted ge_count (sort_values l)
}.

(** ** [groupby(keys, as_index=False).agg(retard_moyen=("DEPARTURE_DELAY", "mean"))] *)

(** The values of a column that are present. *)
Fixpoint present (vs : list (option float)) : list float :=
  match vs with
  | [] => []
  | Some x :: vs' => x :: present vs'
  | None :: vs' => present vs'
  end.

(** A number of observations as a [float64]. *)
Module Int63Literals.
Import PrimInt63.
Definition int_one : int := 1%uint63.
End Int63Literals.

Definition int_one : PrimInt63.int := Int63Literals.int_one.

Fixpoint int_of_pos (p : positive) : PrimInt63.int :=
  match p with
  | xH => int_one
  | xO p' => PrimInt63.lsl (int_of_pos p') int_one
  | xI p' => PrimInt63.add (PrimInt63.lsl (int_of_pos p') int_one) int_one
  end.

Definition float_of_Z (z : Z) : float :=
  match z with
  | Z0 => 0%float
  | Zpos p => of_uint63 (int_of_pos p)
  | Zneg p => (- of_uint63 (int_of_pos p))%float
  end.

Definition float_of_nat (n : nat) : float := float_of_Z (Z.of_nat n).

(** The mean of the values of a group: their [float64] sum divided by their
    number; missing when there is no value, and when the quotient is NaN. *)
Definition fmean {L : Library} (xs : list float) : option float :=
  match xs with
  | [] => None
  | _ :: _ => float_or_na (fsum xs / float_of_nat (List.length xs))%float
  end.

(** The mean of a column, which skips the missing values. *)
Definition mean {L : Library} (vs : list (option float)) : option float :=
  fmean (present vs).

Section GroupBy.

Context {K : Type} `{Ordered K}.

Definition keq (x y : K) : bool :=
  match cmp x y with Eq => true | _ => false end.

(** The values of one group seen so far, in row order. *)
Definition observe (a : list float) (v : option float) : list float :=
  match v with
  | Some x => a ++ [x]
  | None => a
  end.

(** Add one value to the group of [k], opening the group at its place in
    key order when it is new. *)
Fixpoint upsert (k : K) (v : option float) (acc : list (K * list float))
    : list (K * list float) :=
  match acc with
  | [] => [(k, observe [] v)]
  | (k', a) :: rest =>
      match cmp k k' with
      | Lt => (k, observe [] v) :: acc
      | Eq => (k', observe a v) :: rest
      | Gt => (k', a) :: upsert k v rest
      end
  end.

(** One pass over the rows; a row whose key is missing belongs to no
    group ([dropna=True]). *)
Definition accumulate (key : row -> option K) (df : frame)
    : list (K * list float) :=
  fold_left (fun acc r => match key r with
                          | Some k => upsert k (DEPARTURE_DELAY r) acc
                          | None => acc
                          end) df [].

Definition finish {L : Library} (a : list float) : option float := fmean a.

Definition groupby_mean {L : Library} (key : row -> option K) (df : frame)
    : list (K * option float) :=
  map (fun g => (fst g, finish (snd g))) (accumulate key df).

(** The rows of the group of [k]. *)
Definition group (key : row -> option K) (k : K) (df : frame) : frame :=
  filter (fun r => match key r with
                   | Some k' => keq k' k
                   | None => false
                   end) df.

Fixpoint assoc {V} (k : K) (l : list (K * V)) : option V :=
  match l with
  | [] => None
  | (k', v) :: l' => if keq k k' then Some v else assoc k l'
  end.

(** Sorted list of the distinct keys. *)
Fixpoint sorted_insert (k : K) (l : list K) : list K :=
  match l with
  | [] => [k]
  | k' :: l' =>
      match cmp k k' with
      | Lt => k :: l
      | Eq => l
      | Gt => k' :: sorted_insert k l'
      end
  end.

Definition sort_unique (l : list K) : list K :=
  fold_left (fun acc k => sorted_insert k acc) l [].

Fixpoint has_duplicates (l : list K) : bool :=
  match l with
  | [] => false
  | k :: l' => existsb (keq k) l' || has_duplicates l'
  end.

End GroupBy.

(** ** The derived tables (lines 58-88) *)

(** 1) [monthly]: mean delay per month, over the whole dataset. *)
Definition monthly {L : Library} (df : frame) : list (Z * option float) :=
  groupby_mean MONTH df.

(** 2) [trend]: mean delay per day, over the filtered subset. *)
Definition trend {L : Library} (filtered : frame) : list (Z * option float) :=
  groupby_mean DAY filtered.

(** [Series.value_counts()]: occurrences of each value that is present, in
    order of first appearance, then sorted by decreasing count by the
    library's [sort_values]. *)
Fixpoint bump (a : string) (t : list (string * nat)) : list (string * nat) :=
  match t with
  | [] => [(a, 1%nat)]
  | (b, n) :: t' => if String.eqb a b then (b, S n) :: t'
                    else (b, n) :: bump a t'
  end.

Definition tally (column : list (option string)) : list (string * nat) :=
  fold_left (fun t x => match x with
                        | Some a => bump a t
                        | None => t
                        end) column [].

Definition value_counts {L : Library} (column : list (option string))
    : list (string * nat) :=
  sort_values (tally column).

(** [Series.nlargest(n)] with its default [keep="first"]: a stable sort by
    decreasing value (equal values stay in the order of the series), of which
    the first [n] entries are kept. *)
Fixpoint insert_desc (x : string * nat) (l : list (string * nat))
    : list (string * nat) :=
  match l with
  | [] => [x]
  | y :: l' => if (snd x <? snd y)%nat then y :: insert_desc x l'
               else x :: l
  end.

Definition sort_desc (l : list (string * nat)) : list (string * nat) :=
  fold_right insert_desc [] l.

Definition nlargest (n : nat) (s : list (string * nat)) : list (string * nat) :=
  firstn n (sort_desc s).

(** 3) [counts]: the five most frequent origin airports of the subset. *)
Definition counts {L : Library} (filtered : frame) : list (string * nat) :=
  nlargest 5 (value_counts (map ORIGIN_AIRPORT filtered)).

(** [counts.index.tolist()]. *)
Definition top5_airports (counts : list (string * nat)) : list string :=
  map fst counts.

(** [Series.isin(values)]: never missing, false on a missing cell. *)
Definition isin (column : list (option string)) (values : list string)
    : list (option bool) :=
  map (fun x => match x with
                | Some a => Some (existsb (String.eqb a) values)
                | None => Some false
                end) column.

Definition df_top5 (filtered : frame) (top5_airports : list string) : frame :=
  getitem_mask filtered (isin (map ORIGIN_AIRPORT filtered) top5_airports).

(** 5) [heat]: mean delay per (airport, day) of the top five airports. *)
Definition airport_day (r : row) : option (string * Z) :=
  match ORIGIN_AIRPORT r, DAY r with
  | Some a, Some d => Some (a, d)
  | _, _ => None
  end.

Definition heat {L : Library} (df_top5 : frame)
    : list ((string * Z) * option float) :=
  groupby_mean airport_day df_top5.

(** A table indexed by airport (rows) and day (columns); a cell is a mean
    or missing. *)
Record pivot_table : Type := mkPivot {
  index : list string;
  columns : list Z;
  values : list (list (option float))
}.

Definition pivot_cell (long : list ((string * Z) * option float)) (a : string)
    (d : Z) : option float :=
  match assoc (a, d) long with
  | Some v => v
  | None => None
  end.

(** [long.pivot(index="ORIGIN_AIRPORT", columns="DAY", values="retard_moyen")];
    pandas refuses to reshape when an (index, column) pair occurs twice. *)
Definition pivot (long : list ((string * Z) * option float)) : result pivot_table :=
  if has_duplicates (map fst long) then Raise ValueError_reshape
  else
    let idx := sort_unique (map (fun e => fst (fst e)) long) in
    let cls := sort_unique (map (fun e => snd (fst e)) long) in
    OK {| index := idx;
          columns := cls;
          values := map (fun a => map (pivot_cell long a) cls) idx |}.

Definition heat_pivot (heat : list ((string * Z) * option float))
    : result pivot_table :=
  pivot heat.

(** The derived tables of lines 72-84 as functions of the filtered subset. *)
Definition top5_of {L : Library} (f : frame) : frame :=
  df_top5 f (top5_airports (counts f)).
Definition heat_of {L : Library} (f : frame)
    : list ((string * Z) * option float) :=
  heat (top5_of f).

(** 6) [scatter_matrix_df = filtered[["DAY", "DEPARTURE_DELAY"]]]: a frame
    of numeric cells under a list of column labels. *)
Inductive cell : Type :=
| IntCell (z : option Z)
| FloatCell (x : option float).

Record projection : Type := mkProjection {
  proj_columns : list string;
  proj_rows : list (list cell)
}.

Definition scatter_matrix_df (filtered : frame) : projection :=
  {| proj_columns := ["DAY"; "DEPARTURE_DELAY"]%string;
     proj_rows := map (fun r => [IntCell (DAY r); FloatCell (DEPARTURE_DELAY r)])
                      filtered |}.

(** ** The sixth tab (lines 150-159) *)

Inductive tab5_action : Type :=
| ScatterMatrix   (* plt.subplots, scatter_matrix, st.pyplot *)
| WarnNoData      (* "Pas de donnees a afficher pour la selection actuelle." *)
| WarnColumns.    (* "Pas assez de colonnes de donnees ..." *)

(** [DataFrame.empty]: true when any axis has length zero. *)
Definition empty (p : projection) : bool :=
  (List.length (proj_rows p) =? 0)%nat || (List.length (proj_columns p) =? 0)%nat.

Definition tab5 (p : projection) : tab5_action :=
  if negb (empty p) && (1 <? List.length (proj_columns p))%nat then ScatterMatrix
  else if empty p then WarnNoData
  else WarnColumns.

(** ** The script as a sequence of assignments (lines 50-88)

    The variables of the script are the fields of [env]; a variable that has
    not been assigned yet is [None], and reading it raises [NameError].
    [df], [airline] and [month] are bound before line 50. *)

Module Script.

Record env : Type := mkEnv {
  var_df : frame;
  var_airline : option string;
  var_month : option Z;
  var_filtered : option frame;
  var_monthly : option (list (Z * option float));
  var_trend : option (list (Z * option float));
  var_counts : option (list (string * nat));
  var_top5_airports : option (list string);
  var_df_top5 : option frame;
  var_heat : option (list ((string * Z) * option float));
  var_heat_pivot : option pivot_table;
  var_scatter_matrix_df : option projection
}.

Definition initial (df : frame) (airline : option string) (month : option Z)
    : env :=
  mkEnv df airline month None None None None None None None None None.

Definition need {A} (name : string) (v : option A) : result A :=
  match v with
  | Some a => OK a
  | None => Raise (NameError name)
  end.

Definition stmt : Type := env -> result env.

Definition assign_filtered : stmt := fun e =>
  let v := filtered (var_df e) (var_airline e) (var_month e) in
  OK (mkEnv (var_df e) (var_airline e) (var_month e) (Some v)
            (var_monthly e) (var_trend e) (var_counts e)
            (var_top5_airports e) (var_df_top5 e) (var_heat e)
            (var_heat_pivot e) (var_scatter_matrix_df e)).

Definition assign_monthly {L : Library} : stmt := fun e =>
  let v := monthly (var_df e) in
  OK (mkEnv (var_df e) (var_airline e) (var_month e) (var_filtered e)
            (Some v) (var_trend e) (var_counts e)
            (var_top5_airports e) (var_df_top5 e) (var_heat e)
            (var_heat_pivot e) (var_scatter_matrix_df e)).

Definition assign_trend {L : Library} : stmt := fun e =>
  f <- need "filtered" (var_filtered e) ;;
  OK (mkEnv (var_df e) (var_airline e) (var_month e) (var_filtered e)
            (var_monthly e) (Some (trend f)) (var_counts e)
            (var_top5_airports e) (var_df_top5 e) (var_heat e)
            (var_heat_pivot e) (var_scatter_matrix_df e)).

Definition assign_counts {L : Library} : stmt := fun e =>
  f <- need "filtered" (var_filtered e) ;;
  OK (mkEnv (var_df e) (var_airline e) (var_month e) (var_filtered e)
            (var_monthly e) (var_trend e) (Some (counts f))
            (var_top5_airports e) (var_df_top5 e) (var_heat e)
            (var_heat_pivot e) (var_scatter_matrix_df e)).

Definition assign_top5_airports : stmt := fun e =>
  c <- need "counts" (var_counts e) ;;
  OK (mkEnv (var_df e) (var_airline e) (var_month e) (var_filtered e)
            (var_monthly e) (var_trend e) (var_counts e)
            (Some (top5_airports c)) (var_df_top5 e) (var_heat e)
            (var_heat_pivot e) (var_scatter_matrix_df e)).

Definition assign_df_top5 : stmt := fun e =>
  f <- need "filtered" (var_filtered e) ;;
  t <- need "top5_airports" (var_top5_airports e) ;;
  OK (mkEnv (var_df e) (var_airline e) (var_month e) (var_filtered e)
            (var_monthly e) (var_trend e) (var_counts e)
            (var_top5_airports e) (Some (df_top5 f t)) (var_heat e)
            (var_heat_pivot e) (var_scatter_matrix_df e)).

Definition assign_heat {L : Library} : stmt := fun e =>
  d <- need "df_top5" (var_df_top5 e) ;;
  OK (mkEnv (var_df e) (var_airline e) (var_month e) (var_filtered e)
            (var_monthly e) (var_trend e) (var_counts e)
            (var_top5_airports e) (var_df_top5 e) (Some (heat d))
            (var_heat_pivot e) (var_scatter_matrix_df e)).

Definition assign_heat_pivot : stmt := fun e =>
  h <- need "heat" (var_heat e) ;;
  p <- heat_pivot h ;;
  OK (mkEnv (var_df e) (var_airline e) (var_month e) (var_filtered e)
            (var_monthly e) (var_trend e) (var_counts e)
            (var_top5_airports e) (var_df_top5 e) (var_heat e)
            (Some p) (var_scatter_matrix_df e)).

Definition assign_scatter_matrix_df : stmt := fun e =>
  f <- need "filtered" (var_filtered e) ;;
  OK (mkEnv (var_df e) (var_airline e) (var_month e) (var_filtered e)
            (var_monthly e) (var_trend e) (var_counts e)
            (var_top5_airports e) (var_df_top5 e) (var_heat e)
            (var_heat_pivot e) (Some (scatter_matrix_df f))).

Fixpoint exec (p : list stmt) (e : env) : result env :=
  match p with
  | [] => OK e
  | s :: p' => e' <- s e ;; exec p' e'
  end.

(** Lines 58-88. *)
Definition derived_tables {L : Library} : list stmt :=
  [assign_monthly; assign_trend; assign_counts; assign_top5_airports;
   assign_df_top5; assign_heat; assign_heat_pivot;
   assign_scatter_matrix_df].

(** Lines 50-88 as written: [filtered] is assigned at line 50 and again at
    line 53. *)
Definition body {L : Library} : list stmt :=
  assign_filtered :: assign_filtered :: derived_tables.

(** The same lines without the second assignment. *)
Definition body_once {L : Library} : list stmt :=
  assign_filtered :: derived_tables.

End Script.

(** ** One run of the script (lines 7-159)

    A run is the list of elements the script has put on the page, in order,
    and how it ended: with the variables of lines 50-88, or with the exception
    that escaped (the script has no [try]; Streamlit shows an escaped
    exception on the page and stops the run).  The values returned by the
    two sidebar controls are inputs of the run. *)

Inductive element : Type :=
| st_title
| st_success (n : nat)
| st_dataframe (preview : frame)
| sidebar_header
| sidebar_airline (options : list (option string))
| sidebar_month (slider : bool) (options : list (option Z))
| st_tabs
| st_plotly_chart (tab : nat)
| st_tab5 (shown : tab5_action).

Definition is_chart (x : element) : bool :=
  match x with
  | st_tabs | st_plotly_chart _ | st_tab5 _ => true
  | _ => false
  end.

Section Options.

Context {K : Type} `{Ordered K}.

Definition oeq (x y : option K) : bool :=
  match x, y with
  | Some a, Some b => keq a b
  | None, None => true
  | _, _ => false
  end.

(** [Series.unique()]: distinct cells in order of first appearance, the
    missing value included. *)
Definition unique (column : list (option K)) : list (option K) :=
  fold_left (fun acc x => if existsb (oeq x) acc then acc else acc ++ [x])
            column [].

Fixpoint all_present (l : list (option K)) : option (list K) :=
  match l with
  | [] => Some []
  | Some k :: l' => option_map (cons k) (all_present l')
  | None :: _ => None
  end.

(** [sorted(column.unique())]: comparing with a missing value has no
    truth value, which [sorted] reports as a [TypeError]. *)
Definition sorted_unique (column : list (option K)) : result (list (option K)) :=
  let u := unique column in
  if (List.length u <=? 1)%nat then OK u
  else match all_present u with
       | Some ks => OK (map Some (sort_unique ks))
       | None => Raise TypeError
       end.

End Options.

Definition session : Type := (list element * result Script.env)%type.

Section Run.

Context {L : Library}.
Variable parse_int : string -> option Z.
Variable parse_float : string -> option float.

(** Lines 91-159: the tab bar, then one chart per tab.  At line 122
    [px.bar(x=counts.index, y=counts.values)] is given two sequences and
    no data frame; when both are empty it raises a [ValueError], which ends
    the run inside the third tab. *)
Definition tabs (e : Script.env) : list element * result Script.env :=
  match Script.var_counts e with
  | Some [] =>
      ([st_tabs; st_plotly_chart 0; st_plotly_chart 1], Raise ValueError_plot)
  | _ =>
      ([st_tabs; st_plotly_chart 0; st_plotly_chart 1; st_plotly_chart 2;
        st_plotly_chart 3; st_plotly_chart 4] ++
       match Script.var_scatter_matrix_df e with
       | Some p => [st_tab5 (tab5 p)]
       | None => []
       end, OK e)
  end.

Definition run (src : source) (airline : option string) (month : option Z)
    : session :=
  match load_data parse_int parse_float src default_nrows with
  | Raise err => ([st_title], Raise err)
  | OK df =>
      let page := [st_title; st_success (List.length df);
                   st_dataframe (firstn 20 df); sidebar_header] in
      match sorted_unique (map AIRLINE df) with
      | Raise err => (page, Raise err)
      | OK airlines =>
          match sorted_unique (map MONTH df) with
          | Raise err => (page ++ [sidebar_airline airlines], Raise err)
          | OK months =>
              let page := page ++ [sidebar_airline airlines;
                                   sidebar_month (1 <? List.length months)%nat months] in
              match Script.exec Script.body (Script.initial df airline month) with
              | Raise err => (page, Raise err)
              | OK e => (page ++ fst (tabs e), snd (tabs e))
              end
          end
      end
  end.

End Run.

(** * Properties *)

(** ** The data loader *)

Lemma mapM_inv {A B} (f : A -> result B) (l : list A) (bs : list B) :
  mapM f l = OK bs -> Forall2 (fun a b => f a = OK b) l bs.
Proof.
  revert bs. induction l as [|a l IH]; simpl; intros bs E.
  - injection E as <-. constructor.
  - destruct (f a) as [b|] eqn:Ea; simpl in E; [|discriminate].
    destruct (mapM f l) as [bs'|] eqn:El; simpl in E; [|discriminate].
    injection E as <-. constructor; auto.
Qed.

Lemma mapM_total {A B} (f : A -> result B) (l : list A) :
  (forall a, In a l -> exists b, f a = OK b) ->
  exists bs, mapM f l = OK bs.
Proof.
  induction l as [|a l IH]; simpl; intros Hf.
  - eauto.
  - destruct (Hf a) as [b Eb]; auto.
    destruct IH as [bs Ebs]; auto.
    rewrite Eb, Ebs. simpl. eauto.
Qed.

Lemma Forall2_length_eq {A B} (R : A -> B -> Prop) l1 l2 :
  Forall2 R l1 l2 -> List.length l1 = List.length l2.
Proof. induction 1; simpl; congruence. Qed.

Lemma filter_length_le {A} (f : A -> bool) (l : list A) :
  (List.length (filter f l) <= List.length l)%nat.
Proof.
  induction l as [|a l IH]; simpl; [lia|].
  destruct (f a); simpl; lia.
Qed.

Lemma notna_true {A} (o : option A) : notna o = true <-> o <> None.
Proof. destruct o; simpl; split; congruence. Qed.

Section LoaderFacts.

Variable parse_int : string -> option Z.
Variable parse_float : string -> option float.

(** A record converts when its three numeric fields are missing or
    numbers of the declared kind. *)
Definition convertible (header : list string) (record : list string) : bool :=
  match convert parse_int parse_float header record with
  | OK _ => true
  | Raise _ => false
  end.

(** What comes back from a load that returns. *)
Lemma load_data_inv src N df :
  load_data parse_int parse_float src N = OK df ->
  0 <= N /\
  (List.length df <= Z.to_nat N)%nat /\
  Forall (fun r => DEPARTURE_DELAY r <> None) df.
Proof.
  unfold load_data, read_csv.
  destruct src as [| |header records]; simpl; try discriminate.
  destruct (missing_columns header); simpl; [|discriminate].
  destruct (N <? 0) eqn:EN; simpl; [discriminate|].
  apply Z.ltb_ge in EN.
  destruct (mapM (convert parse_int parse_float header) (firstn (Z.to_nat N) records)) as [rows|] eqn:Em;
    simpl; [|discriminate].
  intros [= <-]. split; [assumption|]. split.
  - apply mapM_inv, Forall2_length_eq in Em.
    pose proof (filter_length_le (fun r => notna (DEPARTURE_DELAY r)) rows).
    pose proof (firstn_le_length (Z.to_nat N) records). lia.
  - apply Forall_forall. intros r Hr. apply filter_In in Hr.
    now apply notna_true.
Qed.

(** A source with a fault: no file, an unreadable one, or a header that
    lacks one of the declared columns. *)
Definition source_fault (src : source) : bool :=
  match src with
  | NoFile | Unreadable => true
  | Csv header _ => match missing_columns header with
                    | [] => false
                    | _ :: _ => true
                    end
  end.

Lemma load_data_fault src N :
  source_fault src = true ->
  exists e, load_data parse_int parse_float src N = Raise e /\ data_source_error e = true.
Proof.
  unfold load_data, read_csv. intros Hf.
  destruct src as [| |header records]; simpl in *; eauto.
  destruct (missing_columns header); [discriminate|]. simpl. eauto.
Qed.

End LoaderFacts.

(** ** The filter stage *)

(** The rows the selection asks for. *)
Definition selected (c : string) (m : Z) (r : row) : bool :=
  match AIRLINE r, MONTH r with
  | Some a, Some mo => String.eqb a c && Z.eqb mo m
  | _, _ => false
  end.

Lemma filtered_filter df c m :
  filtered df (Some c) (Some m) = filter (selected c m) df.
Proof.
  unfold filtered, mask_and, series_eq.
  induction df as [|r df IH]; simpl; [reflexivity|].
  unfold selected at 1.
  destruct (AIRLINE r) as [a|], (MONTH r) as [mo|]; simpl;
    try destruct (String.eqb a c); try destruct (Z.eqb mo m); simpl;
    now rewrite IH.
Qed.

Lemma selected_true c m r :
  selected c m r = true <-> AIRLINE r = Some c /\ MONTH r = Some m.
Proof.
  unfold selected.
  destruct (AIRLINE r) as [a|], (MONTH r) as [mo|]; simpl;
    try (split; [discriminate|intros [? ?]; discriminate]).
  rewrite andb_true_iff, String.eqb_eq, Z.eqb_eq.
  split; intros [? ?]; split; congruence.
Qed.

(** A missing carrier or month selects nothing. *)
Lemma filtered_missing_selection df airline month :
  airline = None \/ month = None -> filtered df airline month = [].
Proof.
  unfold filtered, mask_and, series_eq. intros Hsel.
  induction df as [|r df IH]; simpl; [reflexivity|].
  destruct Hsel as [-> | ->]; simpl in *.
  - destruct (AIRLINE r), (MONTH r) as [mo|], month as [m|]; simpl;
      try destruct (Z.eqb mo m); simpl; exact IH.
  - destruct (AIRLINE r) as [a|], (MONTH r), airline as [c|]; simpl;
      try destruct (String.eqb a c); simpl; exact IH.
Qed.


(** C2.  For a carrier [c] and a month [m], the filter stage returns the rows
    of the dataset whose AIRLINE is [c] and whose MONTH is [m], in the order
    of the dataset: it is the order-preserving selection [filter]; a row
    belongs to it exactly when it is a row of the dataset with that carrier
    and month; it has at most as many rows as the dataset; and it is empty
    exactly when no row of the dataset has that carrier and month. *)
Theorem filter_stage_selects df c m :
  filtered df (Some c) (Some m) = filter (selected c m) df /\
  (forall r, In r (filtered df (Some c) (Some m)) <->
             In r df /\ AIRLINE r = Some c /\ MONTH r = Some m) /\
  (List.length (filtered df (Some c) (Some m)) <= List.length df)%nat /\
  (filtered df (Some c) (Some m) = [] <->
   forall r, In r df -> ~ (AIRLINE r = Some c /\ MONTH r = Some m)).
Proof.
  rewrite filtered_filter.
  split; [reflexivity|]. split; [|split; [apply filter_length_le|split]].
  - intros r. rewrite filter_In, selected_true. tauto.
  - intros E r Hr Hsel. apply selected_true in Hsel.
    assert (Hin : In r (filter (selected c m) df)) by (apply filter_In; auto).
    rewrite E in Hin. contradiction.
  - intros Hnone. destruct (filter (selected c m) df) as [|r l] eqn:E; auto.
    assert (Hin : In r (filter (selected c m) df)) by (rewrite E; now left).
    apply filter_In in Hin. destruct Hin as [Hin Hs].
    apply selected_true in Hs. exfalso. eapply Hnone; eauto.
Qed.

(** ** Grouped means *)

(** The values collected from a column: [observe] folded from nothing. *)
Definition tot (vs : list (option float)) : list float :=
  fold_left observe vs [].

Lemma fold_observe vs a : fold_left observe vs a = a ++ present vs.
Proof.
  revert a. induction vs as [|[x|] vs IH]; intros a; simpl.
  - now rewrite app_nil_r.
  - rewrite IH, <- app_assoc. reflexivity.
  - apply IH.
Qed.

Lemma tot_present vs : tot vs = present vs.
Proof. unfold tot. now rewrite fold_observe. Qed.

Lemma finish_tot {L : Library} vs : finish (tot vs) = mean vs.
Proof. unfold finish, mean. now rewrite tot_present. Qed.

Lemma some_nonempty {A B} (F : list A -> B) (l : list A) :
  l <> [] ->
  match l with [] => None | _ :: _ => Some (F l) end = Some (F l).
Proof. destruct l; congruence. Qed.

Section GroupByFacts.

Context {K : Type} `{Ordered K} {L : Library}.

Lemma keq_true (x y : K) : keq x y = true <-> x = y.
Proof.
  unfold keq. rewrite <- cmp_eq.
  destruct (cmp x y); split; congruence.
Qed.

Lemma keq_refl (x : K) : keq x x = true.
Proof. now apply keq_true. Qed.

Lemma keq_false (x y : K) : keq x y = false <-> x <> y.
Proof.
  rewrite <- keq_true. destruct (keq x y); split; congruence.
Qed.

Lemma keq_sym (x y : K) : keq x y = keq y x.
Proof.
  destruct (keq x y) eqn:E.
  - apply keq_true in E. subst. symmetry. apply keq_refl.
  - symmetry. apply keq_false. apply keq_false in E. congruence.
Qed.

Lemma klt_neq (x y : K) : klt x y -> x <> y.
Proof. intros Hlt ->. exact (klt_irrefl Hlt). Qed.

Lemma group_In (key : row -> option K) k df r :
  In r (group key k df) <-> In r df /\ key r = Some k.
Proof.
  unfold group. rewrite filter_In.
  destruct (key r) as [k'|].
  - rewrite keq_true. split; intros [? ?]; split; congruence.
  - split; intros [? ?]; discriminate.
Qed.

Lemma group_snoc (key : row -> option K) k df r :
  group key k (df ++ [r]) =
  group key k df ++ match key r with
                    | Some k' => if keq k' k then [r] else []
                    | None => []
                    end.
Proof.
  unfold group. rewrite filter_app. simpl.
  destruct (key r) as [k'|]; [destruct (keq k' k)|]; reflexivity.
Qed.

(** *** Association lists in key order *)

Definition keys {V} (l : list (K * V)) : list K := map fst l.

Lemma assoc_none {V} k (l : list (K * V)) :
  ~ In k (keys l) -> assoc k l = None.
Proof.
  unfold keys. induction l as [|[k' v] l IH]; simpl; intros Hn; [reflexivity|].
  destruct (keq k k') eqn:E.
  - apply keq_true in E. subst. tauto.
  - apply IH. tauto.
Qed.

Lemma assoc_In {V} k v (l : list (K * V)) :
  assoc k l = Some v -> In (k, v) l.
Proof.
  unfold keys. induction l as [|[k' v'] l IH]; simpl; [discriminate|].
  destruct (keq k k') eqn:E.
  - apply keq_true in E. intros [= ->]. subst. now left.
  - auto.
Qed.


Lemma sorted_NoDup (l : list K) : StronglySorted klt l -> NoDup l.
Proof.
  unfold keys. induction 1 as [|k l Hs IH Hall]; constructor; auto.
  intros Hin. rewrite Forall_forall in Hall.
  exact (klt_irrefl (Hall _ Hin)).
Qed.


Lemma keys_assoc {V} k (l : list (K * V)) :
  In k (keys l) <-> assoc k l <> None.
Proof.
  split.
  - induction l as [|[k' v'] l IH]; simpl; [contradiction|].
    intros [->|Hin]; [now rewrite keq_refl|].
    destruct (keq k k'); [discriminate|auto].
  - intros Hn. destruct (assoc k l) as [v|] eqn:E; [|congruence].
    apply assoc_In in E. apply (in_map fst) in E. exact E.
Qed.

(** *** [upsert] keeps the groups in key order *)

Lemma upsert_keys k v acc k' :
  In k' (keys (upsert k v acc)) <-> k' = k \/ In k' (keys acc).
Proof.
  unfold keys. induction acc as [|[k0 a] acc IH]; simpl.
  - intuition.
  - destruct (cmp k k0) eqn:E; simpl.
    + apply cmp_eq in E. subst. intuition congruence.
    + intuition congruence.
    + rewrite IH. intuition congruence.
Qed.

Lemma upsert_sorted k v acc :
  StronglySorted klt (keys acc) ->
  StronglySorted klt (keys (upsert k v acc)).
Proof.
  unfold keys. induction acc as [|[k0 a] acc IH]; simpl; intros Hs.
  - repeat constructor.
  - inversion Hs as [|? ? Hs' Hall]; subst.
    destruct (cmp k k0) eqn:E; simpl.
    + exact Hs.
    + constructor; [exact Hs|]. constructor; [exact E|].
      rewrite Forall_forall in *. intros x Hx.
      exact (cmp_trans _ _ _ E (Hall x Hx)).
    + constructor; [auto|].
      rewrite Forall_forall in *. intros x Hx.
      apply upsert_keys in Hx. destruct Hx as [->|Hx]; auto.
      now apply cmp_gt_lt.
Qed.

Definition seen (o : option (list float)) : list float :=
  match o with
  | Some a => a
  | None => []
  end.

Lemma assoc_upsert k v acc k' :
  StronglySorted klt (keys acc) ->
  assoc k' (upsert k v acc) =
  if keq k' k then Some (observe (seen (assoc k acc)) v) else assoc k' acc.
Proof.
  unfold keys. induction acc as [|[k0 a] acc IH]; simpl; intros Hs.
  - reflexivity.
  - inversion Hs as [|? ? Hs' Hall]; subst.
    destruct (cmp k k0) eqn:E; simpl.
    + apply cmp_eq in E. subst. rewrite keq_refl. simpl.
      destruct (keq k' k0); reflexivity.
    + assert (Hk0 : keq k k0 = false).
      { apply keq_false. now apply klt_neq. }
      rewrite Hk0.
      rewrite (@assoc_none _ k acc); [reflexivity|].
      intros Hin. rewrite Forall_forall in Hall.
      apply (@klt_irrefl _ _ k).
      exact (cmp_trans _ _ _ E (Hall _ Hin)).
    + assert (Hk0 : keq k k0 = false).
      { apply keq_false. intros ->. rewrite cmp_refl in E. discriminate. }
      rewrite Hk0, IH by assumption.
      destruct (keq k' k0) eqn:E0; [|reflexivity].
      apply keq_true in E0. subst.
      rewrite keq_sym, Hk0. reflexivity.
Qed.

(** *** One pass over the rows *)

Variable key : row -> option K.

Lemma accumulate_snoc df r :
  accumulate key (df ++ [r]) =
  match key r with
  | Some k => upsert k (DEPARTURE_DELAY r) (accumulate key df)
  | None => accumulate key df
  end.
Proof. unfold accumulate. now rewrite fold_left_app. Qed.

Lemma accumulate_sorted df : StronglySorted klt (keys (accumulate key df)).
Proof.
  induction df as [|r df IH] using rev_ind.
  - constructor.
  - rewrite accumulate_snoc. destruct (key r); auto using upsert_sorted.
Qed.

Lemma tot_snoc vs v : tot (vs ++ [v]) = observe (tot vs) v.
Proof. unfold tot. now rewrite fold_left_app. Qed.

Lemma assoc_accumulate df k :
  assoc k (accumulate key df) =
  match group key k df with
  | [] => None
  | _ :: _ => Some (tot (map DEPARTURE_DELAY (group key k df)))
  end.
Proof.
  induction df as [|r df IH] using rev_ind; [reflexivity|].
  rewrite accumulate_snoc, group_snoc.
  destruct (key r) as [k0|].
  - rewrite assoc_upsert by apply accumulate_sorted.
    rewrite (keq_sym k k0).
    destruct (keq k0 k) eqn:E.
    + apply keq_true in E. subst k0. rewrite IH.
      rewrite (@some_nonempty _ _ (fun g => tot (map DEPARTURE_DELAY g))
                 (group key k df ++ [r]))
        by (destruct (group key k df); discriminate).
      rewrite map_app. simpl map. rewrite tot_snoc.
      destruct (group key k df); reflexivity.
    + rewrite app_nil_r. exact IH.
  - rewrite app_nil_r. exact IH.
Qed.

(** *** What [groupby_mean] returns *)

Lemma groupby_mean_keys df :
  keys (groupby_mean key df) = keys (accumulate key df).
Proof.
  unfold groupby_mean, keys. rewrite map_map. reflexivity.
Qed.

Lemma groupby_mean_sorted df :
  StronglySorted klt (keys (groupby_mean key df)).
Proof. rewrite groupby_mean_keys. apply accumulate_sorted. Qed.

Lemma groupby_mean_key_iff df k :
  In k (keys (groupby_mean key df)) <->
  exists r, In r df /\ key r = Some k.
Proof.
  rewrite groupby_mean_keys, keys_assoc, assoc_accumulate.
  destruct (group key k df) as [|r g] eqn:E.
  - split; [congruence|]. intros (r & Hr & Hk).
    assert (Hin : In r (group key k df)) by (apply group_In; auto).
    rewrite E in Hin. contradiction.
  - split; [|discriminate]. intros _. exists r.
    apply (group_In key k df r). rewrite E. now left.
Qed.

Lemma assoc_groupby_mean df k :
  assoc k (groupby_mean key df) =
  match group key k df with
  | [] => None
  | _ :: _ => Some (mean (map DEPARTURE_DELAY (group key k df)))
  end.
Proof.
  assert (Hmap : forall l : list (K * list float),
             assoc k (map (fun g => (fst g, finish (snd g))) l) =
             option_map finish (assoc k l)).
  { induction l as [|[k0 a] l IHl]; simpl; [reflexivity|].
    destruct (keq k k0); [reflexivity|exact IHl]. }
  unfold groupby_mean. rewrite Hmap, assoc_accumulate.
  destruct (group key k df); simpl; [reflexivity|].
  now rewrite finish_tot.
Qed.


Lemma groupby_mean_nil : groupby_mean key [] = [].
Proof. reflexivity. Qed.

End GroupByFacts.

(** ** The monthly and the daily table *)



(** ** Counting airports *)

(** Number of cells of a column that hold [a]. *)
Definition occurrences (a : string) (column : list (option string)) : nat :=
  List.length (filter (fun x => match x with
                                | Some b => String.eqb b a
                                | None => false
                                end) column).

(** The distinct values of a column, each at its first appearance. *)
Fixpoint appearance (column : list (option string)) : list string :=
  match column with
  | [] => []
  | None :: c => appearance c
  | Some a :: c =>
      a :: filter (fun b => negb (String.eqb b a)) (appearance c)
  end.

(** The count recorded for [a] in a tally, zero when there is none. *)
Fixpoint count_of (a : string) (t : list (string * nat)) : nat :=
  match t with
  | [] => O
  | (b, n) :: t' => if String.eqb a b then n else count_of a t'
  end.

Definition tally_step (t : list (string * nat)) (x : option string)
    : list (string * nat) :=
  match x with
  | Some a => bump a t
  | None => t
  end.

Definition has_count (n : nat) (e : string * nat) : bool :=
  (snd e =? n)%nat.

Lemma count_of_bump a b t :
  count_of b (bump a t) =
  if String.eqb b a then S (count_of a t) else count_of b t.
Proof.
  induction t as [|[c n] t IH]; simpl.
  - destruct (String.eqb b a); reflexivity.
  - destruct (String.eqb a c) eqn:Eac; simpl.
    + apply String.eqb_eq in Eac. subst c.
      destruct (String.eqb b a); reflexivity.
    + rewrite IH. destruct (String.eqb b c) eqn:Ebc; [|reflexivity].
      apply String.eqb_eq in Ebc. subst b.
      now rewrite String.eqb_sym, Eac.
Qed.

Lemma bump_keys a t :
  map fst (bump a t) =
  if existsb (String.eqb a) (map fst t) then map fst t
  else map fst t ++ [a].
Proof.
  induction t as [|[c n] t IH]; simpl; [reflexivity|].
  destruct (String.eqb a c) eqn:Eac; simpl; [reflexivity|].
  rewrite IH. destruct (existsb (String.eqb a) (map fst t)); reflexivity.
Qed.

Lemma bump_positive a t :
  Forall (fun e => (1 <= snd e)%nat) t ->
  Forall (fun e => (1 <= snd e)%nat) (bump a t).
Proof.
  induction t as [|[c n] t IH]; simpl; intros Hp.
  - repeat constructor.
  - inversion Hp; subst. destruct (String.eqb a c); constructor; simpl in *;
      auto; lia.
Qed.

Lemma existsb_eqb_In a l :
  existsb (String.eqb a) l = true <-> In a l.
Proof.
  rewrite existsb_exists. split.
  - intros (b & Hb & E). apply String.eqb_eq in E. now subst.
  - intros Hin. exists a. split; [assumption|apply String.eqb_refl].
Qed.

Lemma bump_NoDup a t : NoDup (map fst t) -> NoDup (map fst (bump a t)).
Proof.
  intros Hnd. rewrite bump_keys.
  destruct (existsb (String.eqb a) (map fst t)) eqn:E; [assumption|].
  apply NoDup_app; [assumption|repeat constructor; simpl; tauto|].
  intros x Hx [<-|[]].
  apply existsb_eqb_In in Hx. congruence.
Qed.

Lemma tally_from_count a column t :
  count_of a (fold_left tally_step column t) =
  (count_of a t + occurrences a column)%nat.
Proof.
  revert t. unfold occurrences.
  induction column as [|[b|] c IH]; intros t; simpl.
  - lia.
  - rewrite IH, count_of_bump. rewrite (String.eqb_sym b a).
    destruct (String.eqb a b) eqn:E; simpl; [|lia].
    apply String.eqb_eq in E. subst. lia.
  - apply IH.
Qed.

Lemma tally_from_invariant column t :
  NoDup (map fst t) /\ Forall (fun e => (1 <= snd e)%nat) t ->
  NoDup (map fst (fold_left tally_step column t)) /\
  Forall (fun e => (1 <= snd e)%nat) (fold_left tally_step column t).
Proof.
  revert t. induction column as [|[b|] c IH]; intros t [Hnd Hp]; simpl; auto.
  apply IH. split; [now apply bump_NoDup|now apply bump_positive].
Qed.

Lemma filter_filter {A} (f g : A -> bool) (l : list A) :
  filter f (filter g l) = filter (fun x => g x && f x) l.
Proof.
  induction l as [|x l IH]; simpl; [reflexivity|].
  destruct (g x); simpl; [destruct (f x)|]; now rewrite IH.
Qed.

Lemma tally_from_keys column t :
  map fst (fold_left tally_step column t) =
  map fst t ++
  filter (fun b => negb (existsb (String.eqb b) (map fst t)))
         (appearance column).
Proof.
  revert t. induction column as [|[a|] c IH]; intros t; simpl.
  - now rewrite app_nil_r.
  - rewrite IH, bump_keys.
    destruct (existsb (String.eqb a) (map fst t)) eqn:E; simpl.
    + f_equal. rewrite filter_filter. apply filter_ext_in.
      intros b _. destruct (String.eqb b a) eqn:Eb; [|reflexivity].
      apply String.eqb_eq in Eb. subst. now rewrite E.
    + rewrite <- app_assoc. simpl. f_equal. f_equal.
      rewrite filter_filter. apply filter_ext_in.
      intros b _. rewrite existsb_app. simpl. rewrite orb_false_r.
      destruct (String.eqb b a), (existsb (String.eqb b) (map fst t));
        reflexivity.
  - apply IH.
Qed.

Lemma tally_keys column : map fst (tally column) = appearance column.
Proof.
  unfold tally. change (fun t x => match x with
                                   | Some a => bump a t
                                   | None => t
                                   end) with tally_step.
  rewrite tally_from_keys. simpl.
  induction (appearance column) as [|b l IH]; simpl; congruence.
Qed.

Lemma tally_count a column : count_of a (tally column) = occurrences a column.
Proof.
  unfold tally. change (fun t x => match x with
                                   | Some a => bump a t
                                   | None => t
                                   end) with tally_step.
  now rewrite tally_from_count.
Qed.

Lemma tally_invariant column :
  NoDup (map fst (tally column)) /\
  Forall (fun e => (1 <= snd e)%nat) (tally column).
Proof.
  unfold tally. change (fun t x => match x with
                                   | Some a => bump a t
                                   | None => t
                                   end) with tally_step.
  apply tally_from_invariant. split; constructor.
Qed.

Lemma table_of_counts (g : string -> nat) (t : list (string * nat)) :
  NoDup (map fst t) ->
  (forall a, In a (map fst t) -> count_of a t = g a) ->
  t = map (fun a => (a, g a)) (map fst t).
Proof.
  induction t as [|[b n] t IH]; simpl; intros Hnd Hg; [reflexivity|].
  inversion Hnd as [|? ? Hnotin Hnd']; subst.
  f_equal.
  - specialize (Hg b (or_introl eq_refl)).
    rewrite String.eqb_refl in Hg. now subst.
  - apply IH; [assumption|]. intros a Ha.
    specialize (Hg a (or_intror Ha)).
    destruct (String.eqb a b) eqn:E; [|assumption].
    apply String.eqb_eq in E. subst. contradiction.
Qed.

(** Each distinct airport with its number of occurrences, in order of first
    appearance. *)
Definition ranked (column : list (option string)) : list (string * nat) :=
  map (fun a => (a, occurrences a column)) (appearance column).

Lemma tally_ranked column : tally column = ranked column.
Proof.
  unfold ranked. rewrite <- tally_keys.
  apply table_of_counts; [apply tally_invariant|].
  intros a _. apply tally_count.
Qed.

Lemma appearance_In a column :
  In a (appearance column) <-> In (Some a) column.
Proof.
  induction column as [|[b|] c IH]; simpl.
  - tauto.
  - rewrite filter_In, IH, negb_true_iff, String.eqb_neq.
    destruct (String.eqb_spec b a) as [->|Hne].
    + split; auto.
    + split.
      * intros [?|[? ?]]; [contradiction|auto].
      * intros [[= ?]|?]; [contradiction|]. right. split; auto.
  - rewrite IH. split; [auto|]. intros [?|?]; [discriminate|auto].
Qed.

(** *** The stable decreasing sort *)

Lemma insert_desc_perm x l : Permutation (insert_desc x l) (x :: l).
Proof.
  induction l as [|y l IH]; simpl; [reflexivity|].
  destruct (snd x <? snd y)%nat; [|reflexivity].
  rewrite IH. apply perm_swap.
Qed.

Lemma sort_desc_perm l : Permutation (sort_desc l) l.
Proof.
  induction l as [|x l IH]; simpl; [reflexivity|].
  rewrite insert_desc_perm. now constructor.
Qed.

Lemma insert_desc_sorted x l :
  StronglySorted ge_count l -> StronglySorted ge_count (insert_desc x l).
Proof.
  induction l as [|y l IH]; simpl; intros Hs.
  - repeat constructor.
  - inversion Hs as [|? ? Hs' Hall]; subst.
    destruct (snd x <? snd y)%nat eqn:E.
    + apply Nat.ltb_lt in E. constructor; [auto|].
      rewrite Forall_forall in *. intros z Hz.
      apply (Permutation_in _ (insert_desc_perm x l)) in Hz.
      destruct Hz as [<-|Hz]; [unfold ge_count; lia|auto].
    + apply Nat.ltb_ge in E. constructor; [assumption|].
      constructor; [exact E|].
      rewrite Forall_forall in *. intros z Hz.
      specialize (Hall z Hz). unfold ge_count in *. lia.
Qed.

Lemma sort_desc_sorted l : StronglySorted ge_count (sort_desc l).
Proof.
  induction l as [|x l IH]; simpl; [constructor|].
  now apply insert_desc_sorted.
Qed.

Lemma insert_desc_stable n x l :
  filter (has_count n) (insert_desc x l) = filter (has_count n) (x :: l).
Proof.
  induction l as [|y l IH]; simpl; [reflexivity|].
  destruct (snd x <? snd y)%nat eqn:E; [|reflexivity].
  apply Nat.ltb_lt in E. simpl. rewrite IH. simpl.
  unfold has_count.
  destruct (snd x =? n)%nat eqn:Ex, (snd y =? n)%nat eqn:Ey; try reflexivity.
  apply Nat.eqb_eq in Ex, Ey. lia.
Qed.

Lemma sort_desc_stable n l :
  filter (has_count n) (sort_desc l) = filter (has_count n) l.
Proof.
  induction l as [|x l IH]; simpl; [reflexivity|].
  rewrite insert_desc_stable. simpl. now rewrite IH.
Qed.



Lemma NoDup_app_l {A} (l1 l2 : list A) : NoDup (l1 ++ l2) -> NoDup l1.
Proof.
  induction l1 as [|z l1 IH]; simpl; intros Hn; [constructor|].
  inversion Hn as [|? ? Hnotin Hn']; subst.
  constructor; [|auto]. intros Hin. apply Hnotin, in_or_app. now left.
Qed.


(** The whole ranking of which [counts] keeps the first five entries. *)
Definition ranking {L : Library} (column : list (option string))
    : list (string * nat) :=
  sort_desc (value_counts column).


Lemma ranking_perm {L : Library} column :
  Permutation (ranking column) (ranked column).
Proof.
  unfold ranking, value_counts. rewrite sort_desc_perm, sort_values_perm.
  now rewrite tally_ranked.
Qed.

Lemma ranked_keys column : map fst (ranked column) = appearance column.
Proof.
  unfold ranked. rewrite map_map. simpl. apply map_id.
Qed.

Lemma ranked_NoDup column : NoDup (map fst (ranked column)).
Proof. rewrite <- tally_ranked. apply tally_invariant. Qed.

Lemma ranked_In a n column :
  In (a, n) (ranked column) <->
  In (Some a) column /\ n = occurrences a column.
Proof.
  unfold ranked. rewrite in_map_iff. split.
  - intros (b & [= -> <-] & Hb). now rewrite <- appearance_In.
  - intros [Ha ->]. exists a. now rewrite appearance_In.
Qed.

Lemma counts_split {L : Library} f :
  ranking (map ORIGIN_AIRPORT f) =
  counts f ++ skipn 5 (ranking (map ORIGIN_AIRPORT f)).
Proof.
  unfold counts, nlargest. symmetry. apply firstn_skipn.
Qed.


(** ** The day x airport matrix *)

Section SortUniqueFacts.

Context {K : Type} `{Ordered K}.

Lemma sorted_insert_In k l x :
  In x (sorted_insert k l) <-> x = k \/ In x l.
Proof.
  induction l as [|k0 l IH]; simpl.
  - intuition congruence.
  - destruct (cmp k k0) eqn:E; simpl.
    + apply cmp_eq in E. subst. intuition congruence.
    + intuition congruence.
    + rewrite IH. intuition congruence.
Qed.

Lemma sorted_insert_sorted k l :
  StronglySorted klt l -> StronglySorted klt (sorted_insert k l).
Proof.
  induction l as [|k0 l IH]; simpl; intros Hs.
  - repeat constructor.
  - inversion Hs as [|? ? Hs' Hall]; subst.
    destruct (cmp k k0) eqn:E.
    + exact Hs.
    + constructor; [exact Hs|]. constructor; [exact E|].
      rewrite Forall_forall in *. intros x Hx.
      exact (cmp_trans _ _ _ E (Hall x Hx)).
    + constructor; [auto|].
      rewrite Forall_forall in *. intros x Hx.
      apply sorted_insert_In in Hx. destruct Hx as [->|Hx]; auto.
      now apply cmp_gt_lt.
Qed.

Lemma sort_unique_from l acc :
  StronglySorted klt acc ->
  StronglySorted klt (fold_left (fun acc k => sorted_insert k acc) l acc) /\
  (forall x, In x (fold_left (fun acc k => sorted_insert k acc) l acc) <->
             In x l \/ In x acc).
Proof.
  revert acc. induction l as [|k l IH]; simpl; intros acc Hs.
  - split; [assumption|]. intros x. tauto.
  - destruct (IH (sorted_insert k acc)) as [Hs' Hin];
      [now apply sorted_insert_sorted|].
    split; [assumption|]. intros x.
    rewrite Hin, sorted_insert_In. intuition congruence.
Qed.

Lemma sort_unique_sorted l : StronglySorted klt (sort_unique l).
Proof. apply sort_unique_from. constructor. Qed.

Lemma sort_unique_In l x : In x (sort_unique l) <-> In x l.
Proof.
  unfold sort_unique.
  destruct (sort_unique_from l (acc := [])) as [_ Hin]; [constructor|].
  rewrite Hin. simpl. tauto.
Qed.

Lemma has_duplicates_NoDup l : NoDup l -> has_duplicates l = false.
Proof.
  induction 1 as [|k l Hnotin Hnd IH]; simpl; [reflexivity|].
  rewrite IH, orb_false_r.
  destruct (existsb (keq k) l) eqn:E; [|reflexivity].
  apply existsb_exists in E. destruct E as (x & Hx & Ek).
  apply keq_true in Ek. subst. contradiction.
Qed.

End SortUniqueFacts.

(** The rows of the subset whose airport is one of the given ones. *)
Definition at_airports (airports : list string) (r : row) : bool :=
  match ORIGIN_AIRPORT r with
  | Some a => existsb (String.eqb a) airports
  | None => false
  end.

Lemma df_top5_filter f airports :
  df_top5 f airports = filter (at_airports airports) f.
Proof.
  unfold df_top5, isin, at_airports.
  induction f as [|r f IH]; simpl; [reflexivity|].
  destruct (ORIGIN_AIRPORT r) as [a|]; simpl; [|exact IH].
  destruct (existsb (String.eqb a) airports); now rewrite IH.
Qed.

Lemma airport_day_Some r a d :
  airport_day r = Some (a, d) <-> ORIGIN_AIRPORT r = Some a /\ DAY r = Some d.
Proof.
  unfold airport_day.
  destruct (ORIGIN_AIRPORT r), (DAY r); split;
    try intros [? ?]; try intros [=]; subst; try discriminate; auto;
    congruence.
Qed.

(** The cell of the matrix at an airport and a day: the mean of the delays
    of the rows at that airport and day, missing when there is no such row. *)
Definition cell_of {L : Library} (rows : frame) (a : string) (d : Z)
    : option float :=
  match group airport_day (a, d) rows with
  | [] => None
  | _ :: _ => mean (map DEPARTURE_DELAY (group airport_day (a, d) rows))
  end.

Lemma pivot_cell_heat {L : Library} rows a d :
  pivot_cell (heat rows) a d = cell_of rows a d.
Proof.
  unfold pivot_cell, heat, cell_of. rewrite assoc_groupby_mean.
  destruct (group airport_day (a, d) rows); reflexivity.
Qed.

Lemma heat_pivot_heat {L : Library} rows :
  heat_pivot (heat rows) =
  OK {| index := sort_unique (map (fun e => fst (fst e)) (heat rows));
        columns := sort_unique (map (fun e => snd (fst e)) (heat rows));
        values :=
          map (fun a => map (cell_of rows a)
                            (sort_unique (map (fun e => snd (fst e)) (heat rows))))
              (sort_unique (map (fun e => fst (fst e)) (heat rows))) |}.
Proof.
  unfold heat_pivot, pivot.
  rewrite has_duplicates_NoDup.
  - do 2 f_equal. apply map_ext. intros a. apply map_ext. intros d.
    apply pivot_cell_heat.
  - apply sorted_NoDup. exact (groupby_mean_sorted airport_day rows).
Qed.

Lemma heat_key {L : Library} rows a d :
  In (a, d) (map fst (heat rows)) <->
  exists r, In r rows /\ ORIGIN_AIRPORT r = Some a /\ DAY r = Some d.
Proof.
  unfold heat.
  pose proof (groupby_mean_key_iff airport_day rows (a, d)) as Hiff.
  unfold keys in Hiff. rewrite Hiff.
  split; intros (r & Hr & Hk); exists r; split; auto;
    now apply airport_day_Some.
Qed.



(** ** Means on a loaded dataset *)






(** ** The sixth tab *)


(** ** The script *)

Lemma assign_filtered_twice (p : list Script.stmt) e :
  Script.exec (Script.assign_filtered :: Script.assign_filtered :: p) e =
  Script.exec (Script.assign_filtered :: p) e.
Proof.
  cbn [Script.exec]. unfold Script.assign_filtered at 1 3.
  cbn [bind]. unfold Script.assign_filtered at 1.
  cbn [bind Script.var_df Script.var_airline Script.var_month
       Script.var_filtered Script.var_monthly Script.var_trend
       Script.var_counts Script.var_top5_airports Script.var_df_top5
       Script.var_heat Script.var_heat_pivot Script.var_scatter_matrix_df].
  reflexivity.
Qed.

Lemma exec_body_once_initial {L : Library} df airline month :
  Script.exec Script.body_once (Script.initial df airline month) =
  Script.exec Script.derived_tables
    (Script.mkEnv df airline month (Some (filtered df airline month))
       None None None None None None None None).
Proof.
  unfold Script.body_once, Script.initial.
  cbn [Script.exec]. unfold Script.assign_filtered at 1.
  cbn [bind Script.var_df Script.var_airline Script.var_month
       Script.var_filtered Script.var_monthly Script.var_trend
       Script.var_counts Script.var_top5_airports Script.var_df_top5
       Script.var_heat Script.var_heat_pivot Script.var_scatter_matrix_df].
  reflexivity.
Qed.

Lemma exec_derived_tables {L : Library} e f :
  Script.var_filtered e = Some f ->
  exists e',
    Script.exec Script.derived_tables e = OK e' /\
    Script.var_df e' = Script.var_df e /\
    Script.var_airline e' = Script.var_airline e /\
    Script.var_month e' = Script.var_month e /\
    Script.var_filtered e' = Some f /\
    Script.var_monthly e' = Some (monthly (Script.var_df e)) /\
    Script.var_trend e' = Some (trend f) /\
    Script.var_counts e' = Some (counts f) /\
    Script.var_top5_airports e' = Some (top5_airports (counts f)) /\
    Script.var_df_top5 e' = Some (top5_of f) /\
    Script.var_heat e' = Some (heat_of f) /\
    heat_pivot (heat_of f) = OK (match Script.var_heat_pivot e' with
                                 | Some pt => pt
                                 | None => mkPivot [] [] []
                                 end) /\
    Script.var_heat_pivot e' <> None /\
    Script.var_scatter_matrix_df e' = Some (scatter_matrix_df f).
Proof.
  intros Hf.
  unfold Script.derived_tables, Script.exec.
  unfold Script.assign_monthly, Script.assign_trend, Script.assign_counts,
    Script.assign_top5_airports, Script.assign_df_top5, Script.assign_heat,
    Script.assign_heat_pivot, Script.assign_scatter_matrix_df.
  simpl. rewrite Hf. simpl.
  fold (top5_of f). rewrite (heat_pivot_heat (top5_of f)). simpl.
  eexists. split; [reflexivity|]. simpl.
  unfold heat_of. rewrite (heat_pivot_heat (top5_of f)).
  repeat split; try reflexivity. discriminate.
Qed.

(** ** Two libraries and a sample source *)

(** The plain loop that adds the values in order. *)
Definition plain_sum (xs : list float) : float :=
  fold_left PrimFloat.add xs 0%float.

(** A library that sums with the plain loop and whose sort is stable. *)
Definition plain_library : Library :=
  {| fsum := plain_sum;
     sort_values := sort_desc;
     sort_values_perm := sort_desc_perm;
     sort_values_sorted := sort_desc_sorted |}.









(** A reader for the fragment of the number grammar made of [inf], [-inf]
    and an optional sign followed by decimal digits (small integers), and a
    small file, on which the loader is run. *)
Definition decimal_int (field : string) : option Z :=
  option_map Z.of_int (DecimalString.NilZero.int_of_string field).

Definition decimal_float (field : string) : option float :=
  if String.eqb field "inf" then Some infinity
  else if String.eqb field "-inf" then Some neg_infinity
  else option_map float_of_Z (decimal_int field).

Definition sample_header : list string :=
  ["YEAR"; "MONTH"; "DAY"; "AIRLINE"; "ORIGIN_AIRPORT"; "DEPARTURE_DELAY"]%string.

Definition sample_records : list (list string) :=
  [["2015"; "1"; "15"; "AA"; "JFK"; "10"];
   ["2015"; "1"; "15"; "AA"; "LAX"; "-5"];
   ["2015"; "1"; "15"; "AA"; "JFK"; "NaN"];
   ["2015"; "1"; "15"; "AA"; "JFK"; "20"];
   ["2015"; "2"; "3"; "UA"; "SFO"; "7"]]%string.

Definition sample_frame : frame :=
  [mkRow (Some 1) (Some 15) (Some "AA"%string) (Some "JFK"%string) (Some 10%float);
   mkRow (Some 1) (Some 15) (Some "AA"%string) (Some "LAX"%string) (Some (-5)%float);
   mkRow (Some 1) (Some 15) (Some "AA"%string) (Some "JFK"%string) (Some 20%float)].



(** ** The claims on the loader *)

(** What [convert] reads of a record: the five declared columns, each at
    its declared type. *)
Definition reads (parse_int : string -> option Z)
    (parse_float : string -> option float) (header record : list string)
    (r : row) : Prop :=
  to_Int64 parse_int "MONTH" (field_at header record "MONTH") = OK (MONTH r) /\
  to_Int64 parse_int "DAY" (field_at header record "DAY") = OK (DAY r) /\
  AIRLINE r = to_string (field_at header record "AIRLINE") /\
  ORIGIN_AIRPORT r = to_string (field_at header record "ORIGIN_AIRPORT") /\
  to_float64 parse_float "DEPARTURE_DELAY"
    (field_at header record "DEPARTURE_DELAY") = OK (DEPARTURE_DELAY r).

Lemma convert_reads parse_int parse_float header record r :
  convert parse_int parse_float header record = OK r ->
  reads parse_int parse_float header record r.
Proof.
  unfold convert, reads.
  destruct (to_Int64 parse_int "MONTH" _) as [m|]; simpl; [|discriminate].
  destruct (to_Int64 parse_int "DAY" _) as [d|]; simpl; [|discriminate].
  destruct (to_float64 parse_float "DEPARTURE_DELAY" _) as [y|]; simpl;
    [|discriminate].
  intros [= <-]. simpl. repeat split; reflexivity.
Qed.

(** C1.  For a row cap [N >= 0] and a file that has the declared columns
    and whose first [N] records convert, [load_data] returns a table [df]:
    the first [N] records at most are read, each into the five declared
    columns at their declared types, and [df] is made of those of these rows
    whose DEPARTURE_DELAY is present, in order; so [df] has at most [N] rows,
    every row of [df] has a delay, and a row read without a delay is not
    in [df]. *)
Theorem load_data_capped parse_int parse_float header records N :
  0 <= N ->
  missing_columns header = [] ->
  forallb (convertible parse_int parse_float header)
          (firstn (Z.to_nat N) records) = true ->
  exists rows df,
    load_data parse_int parse_float (Csv header records) N = OK df /\
    Forall2 (reads parse_int parse_float header)
            (firstn (Z.to_nat N) records) rows /\
    df = filter (fun r => notna (DEPARTURE_DELAY r)) rows /\
    (List.length df <= Z.to_nat N)%nat /\
    Forall (fun r => DEPARTURE_DELAY r <> None) df /\
    (forall r, In r df <-> In r rows /\ DEPARTURE_DELAY r <> None).
Proof.
  intros HN Hcols Hconv.
  destruct (mapM_total (convert parse_int parse_float header)
              (firstn (Z.to_nat N) records)) as [rows Hrows].
  { intros record Hin. rewrite forallb_forall in Hconv.
    specialize (Hconv record Hin). unfold convertible in Hconv.
    destruct (convert parse_int parse_float header record); [eauto|discriminate]. }
  assert (Hload : load_data parse_int parse_float (Csv header records) N =
                  OK (filter (fun r => notna (DEPARTURE_DELAY r)) rows)).
  { unfold load_data, read_csv.
    destruct (N <? 0) eqn:E; [apply Z.ltb_lt in E; lia|].
    rewrite Hcols, Hrows. reflexivity. }
  exists rows, (filter (fun r => notna (DEPARTURE_DELAY r)) rows).
  split; [exact Hload|]. split; [|split; [reflexivity|]].
  - apply mapM_inv in Hrows.
    eapply Forall2_impl; [|exact Hrows].
    intros record r. apply convert_reads.
  - destruct (load_data_inv _ _ _ _ Hload) as (_ & Hlen & Hall).
    split; [exact Hlen|]. split; [exact Hall|].
    intros r. now rewrite filter_In, notna_true.
Qed.

Lemma load_data_capped_witness :
  (0 <= 4 /\
   missing_columns sample_header = [] /\
   forallb (convertible decimal_int decimal_float sample_header)
           (firstn (Z.to_nat 4) sample_records) = true) /\
  exists rows df,
    load_data decimal_int decimal_float (Csv sample_header sample_records) 4
    = OK df /\
    Forall2 (reads decimal_int decimal_float sample_header)
            (firstn (Z.to_nat 4) sample_records) rows /\
    df = filter (fun r => notna (DEPARTURE_DELAY r)) rows /\
    (List.length df <= Z.to_nat 4)%nat /\
    Forall (fun r => DEPARTURE_DELAY r <> None) df /\
    (forall r, In r df <-> In r rows /\ DEPARTURE_DELAY r <> None).
Proof.
  split.
  - split; [lia|split; reflexivity].
  - apply (@load_data_capped decimal_int decimal_float sample_header
             sample_records 4); [lia|reflexivity|reflexivity].
Defined.

Lemma load_sample :
  load_data decimal_int decimal_float (Csv sample_header sample_records) 4
  = OK sample_frame.
Proof. reflexivity. Qed.

(** C8.  When the file is missing, cannot be read or lacks one of the
    declared columns, [load_data] raises an exception of [read_csv] and
    returns no table, not even an empty one; the run of the script ends at
    line 32 with that exception escaping, after the title alone has been put
    on the page: no tab and no chart. *)
Theorem load_failure_is_fatal {L : Library} parse_int parse_float src N
    airline month :
  source_fault src = true ->
  (exists err, load_data parse_int parse_float src N = Raise err /\
               data_source_error err = true) /\
  (forall df, load_data parse_int parse_float src N <> OK df) /\
  (exists err, run parse_int parse_float src airline month
               = ([st_title], Raise err) /\
               data_source_error err = true) /\
  existsb is_chart (fst (run parse_int parse_float src airline month)) = false.
Proof.
  intros Hfault.
  destruct (load_data_fault parse_int parse_float src N Hfault)
    as (err & Herr & Hds).
  destruct (load_data_fault parse_int parse_float src default_nrows Hfault)
    as (err' & Herr' & Hds').
  split; [eauto|]. split; [intros df; congruence|].
  unfold run. rewrite Herr'. split; [eauto|reflexivity].
Qed.

Lemma load_failure_is_fatal_witness :
  source_fault (Csv ["MONTH"; "DAY"; "AIRLINE"]%string sample_records) = true /\
  (exists err,
      run (L := plain_library) decimal_int decimal_float
          (Csv ["MONTH"; "DAY"; "AIRLINE"]%string sample_records)
          (Some "AA"%string) (Some 1)
      = ([st_title], Raise err) /\
      data_source_error err = true).
Proof.
  split; [reflexivity|].
  apply (@load_failure_is_fatal plain_library decimal_int decimal_float
           (Csv ["MONTH"; "DAY"; "AIRLINE"]%string sample_records)
           default_nrows (Some "AA"%string) (Some 1) eq_refl).
Defined.

(** Three rows of carrier AA in January, all on day 15, with delays 10, -5
    and 20: one row in the trend table, whose mean is the [float64] nearest
    to 25/3. *)
Example trend_of_sample :
  trend (L := plain_library)
        (filtered sample_frame (Some "AA"%string) (Some 1)) =
  [(15, Some 0x1.0aaaaaaaaaaabp+3%float)].
Proof. reflexivity. Qed.

Example counts_of_sample :
  counts (L := plain_library)
         (filtered sample_frame (Some "AA"%string) (Some 1)) =
  [("JFK"%string, 2%nat); ("LAX"%string, 1%nat)].
Proof. reflexivity. Qed.

(** ** Where the means are not the arithmetic mean *)






(** ** The claims on the means, the sixth tab and the duplicated line *)






(** C10.  Assigning [filtered] a second time changes nothing: from any
    state of the variables, lines 50-88 as written and the same lines with
    line 53 removed end in the same state.  From the state where [df],
    [airline] and [month] are bound, both end without error, with [filtered]
    and the derived tables holding the values defined above. *)
Theorem duplicate_filtered_is_noop {L : Library} df airline month :
  (forall e, Script.exec Script.body e = Script.exec Script.body_once e) /\
  exists e',
    Script.exec Script.body (Script.initial df airline month) = OK e' /\
    Script.exec Script.body_once (Script.initial df airline month) = OK e' /\
    Script.var_filtered e' = Some (filtered df airline month) /\
    Script.var_monthly e' = Some (monthly df) /\
    Script.var_trend e' = Some (trend (filtered df airline month)) /\
    Script.var_counts e' = Some (counts (filtered df airline month)) /\
    Script.var_df_top5 e' = Some (top5_of (filtered df airline month)) /\
    Script.var_heat e' = Some (heat_of (filtered df airline month)) /\
    option_map OK (Script.var_heat_pivot e') =
      Some (heat_pivot (heat_of (filtered df airline month))) /\
    Script.var_scatter_matrix_df e' =
      Some (scatter_matrix_df (filtered df airline month)).
Proof.
  assert (Hsame : forall e,
             Script.exec Script.body e = Script.exec Script.body_once e).
  { intros e. unfold Script.body, Script.body_once.
    apply assign_filtered_twice. }
  split; [exact Hsame|].
  rewrite Hsame, exec_body_once_initial.
  set (f := filtered df airline month).
  destruct (@exec_derived_tables L
              (Script.mkEnv df airline month (Some f)
                 None None None None None None None None) f eq_refl)
    as (e' & Hexec & _ & _ & _ & Hf & Hm & Ht & Hc & _ & Hd & Hh & Hp & Hpn & Hs).
  cbn [Script.var_df] in Hm.
  exists e'.
  split; [exact Hexec|]. split; [exact Hexec|].
  split; [exact Hf|]. split; [exact Hm|]. split; [exact Ht|].
  split; [exact Hc|]. split; [exact Hd|]. split; [exact Hh|].
  split; [|exact Hs].
  rewrite Hp. destruct (Script.var_heat_pivot e'); [reflexivity|congruence].
Qed.


(** * Further properties of the script *)

(** ** The filter stage, again (lines 50-53) *)

Lemma filter_idem {A} (f : A -> bool) (l : list A) :
  filter f (filter f l) = filter f l.
Proof.
  rewrite filter_filter. apply filter_ext. intros x. now destruct (f x).
Qed.

(** X1.  Filtering is idempotent: filtering the filtered subset by the same
    carrier and month gives the filtered subset back, whatever the two
    controls returned. *)
Theorem filtered_idempotent df airline month :
  filtered (filtered df airline month) airline month =
  filtered df airline month.
Proof.
  destruct airline as [c|], month as [m|];
    try (rewrite !(@filtered_missing_selection df) by auto;
         apply filtered_missing_selection; auto).
  rewrite !filtered_filter. apply filter_idem.
Qed.

Lemma counts_nil {L : Library} : counts [] = [].
Proof.
  assert (E : sort_values [] = []).
  { apply Permutation_nil. symmetry. apply sort_values_perm. }
  unfold counts, nlargest, value_counts, tally. cbn [map fold_left].
  now rewrite E.
Qed.

(** X2.  When a sidebar control returns no value (a select box without
    options returns [None]), the comparison is missing on every row and the
    filtered subset is empty, whatever the dataset; the trend table and the
    airport counts are then empty. *)
Theorem filtered_without_selection {L : Library} df airline month :
  airline = None \/ month = None ->
  filtered df airline month = [] /\
  trend (filtered df airline month) = [] /\
  counts (filtered df airline month) = [].
Proof.
  intros Hsel. rewrite (filtered_missing_selection df Hsel).
  split; [reflexivity|]. split; [reflexivity|apply counts_nil].
Qed.

Lemma filtered_without_selection_witness :
  filtered sample_frame None (Some 1) = [] /\
  counts (L := plain_library) (filtered sample_frame None (Some 1)) = [].
Proof.
  pose proof (@filtered_without_selection plain_library sample_frame None
                (Some 1) (or_introl eq_refl)) as H.
  split; [exact (proj1 H)|exact (proj2 (proj2 H))].
Defined.

(** ** The sidebar options (lines 41-48) *)

Section OptionsFacts.

Context {K : Type} `{Ordered K}.

Lemma oeq_true (x y : option K) : oeq x y = true <-> x = y.
Proof.
  destruct x as [a|], y as [b|]; simpl.
  - rewrite keq_true. split; congruence.
  - split; discriminate.
  - split; discriminate.
  - tauto.
Qed.

Lemma existsb_oeq_In (x : option K) (l : list (option K)) :
  existsb (oeq x) l = true <-> In x l.
Proof.
  rewrite existsb_exists. split.
  - intros (y & Hy & E). apply oeq_true in E. now subst.
  - intros Hin. exists x. split; [assumption|now apply oeq_true].
Qed.

Lemma unique_from (column acc : list (option K)) :
  NoDup acc ->
  NoDup (fold_left (fun acc x => if existsb (oeq x) acc then acc
                                 else acc ++ [x]) column acc) /\
  (forall x, In x (fold_left (fun acc x => if existsb (oeq x) acc then acc
                                           else acc ++ [x]) column acc) <->
             In x acc \/ In x column).
Proof.
  revert acc. induction column as [|c column IH]; simpl; intros acc Hnd.
  - split; [assumption|]. intros x. tauto.
  - destruct (existsb (oeq c) acc) eqn:E.
    + destruct (IH acc Hnd) as [Hnd' Hin]. split; [assumption|].
      intros x. rewrite Hin. apply existsb_oeq_In in E.
      intuition congruence.
    + assert (Hnd1 : NoDup (acc ++ [c])).
      { apply NoDup_app; [assumption|repeat constructor; simpl; tauto|].
        intros x Hx [<-|[]]. apply existsb_oeq_In in Hx. congruence. }
      destruct (IH (acc ++ [c]) Hnd1) as [Hnd' Hin]. split; [assumption|].
      intros x. rewrite Hin, in_app_iff. simpl. intuition congruence.
Qed.

Lemma unique_NoDup (column : list (option K)) : NoDup (unique column).
Proof. apply unique_from. constructor. Qed.

Lemma unique_In (column : list (option K)) x : In x (unique column) <-> In x column.
Proof.
  unfold unique. destruct (unique_from column (acc := [])) as [_ Hin];
    [constructor|].
  rewrite Hin. simpl. tauto.
Qed.

Lemma all_present_Some (l : list (option K)) (ks : list K) :
  all_present l = Some ks <-> l = map Some ks.
Proof.
  revert ks. induction l as [|[k|] l IH]; intros ks; simpl.
  - split; [intros [= <-]; reflexivity|]. destruct ks; [reflexivity|discriminate].
  - destruct (all_present l) as [ks'|] eqn:E; simpl.
    + split.
      * intros [= <-]. simpl. f_equal. now apply IH.
      * destruct ks as [|k0 ks]; [discriminate|]. simpl. intros [= -> Hl].
        apply IH in Hl. now injection Hl as ->.
    + split; [discriminate|].
      destruct ks as [|k0 ks]; [discriminate|]. simpl. intros [= -> Hl].
      apply IH in Hl. discriminate.
  - split; [discriminate|]. destruct ks; discriminate.
Qed.

Lemma all_present_None (l : list (option K)) :
  all_present l = None <-> In None l.
Proof.
  induction l as [|[k|] l IH]; simpl.
  - split; [discriminate|tauto].
  - destruct (all_present l); simpl.
    + split; [discriminate|]. intros [?|Hin]; [discriminate|].
      apply IH in Hin. discriminate.
    + split; [|reflexivity]. intros _. right. now apply IH.
  - split; auto.
Qed.

Lemma sort_unique_length (ks : list K) :
  NoDup ks -> List.length (sort_unique ks) = List.length ks.
Proof.
  intros Hnd. apply Permutation_length, NoDup_Permutation.
  - apply sorted_NoDup, sort_unique_sorted.
  - assumption.
  - apply sort_unique_In.
Qed.

Lemma two_distinct_length (l : list (option K)) :
  NoDup l ->
  ((1 < List.length l)%nat <-> exists x y, In x l /\ In y l /\ x <> y).
Proof.
  intros Hnd. split.
  - destruct l as [|x [|y l]]; simpl; try lia. intros _.
    exists x, y. repeat split; auto.
    inversion Hnd as [|? ? Hnotin _]; subst. intros ->. apply Hnotin. now left.
  - intros (x & y & Hx & Hy & Hne).
    destruct l as [|a [|b l]]; simpl in *; try lia; try tauto.
    destruct Hx as [<-|[]], Hy as [<-|[]]. congruence.
Qed.

End OptionsFacts.

(** X3.  When no cell of the column is missing, [sorted(column.unique())]
    succeeds and the options offered are the distinct values of the column
    in strictly increasing order. *)
Theorem sorted_unique_present {K} `{Ordered K} (column : list (option K)) :
  ~ In None column ->
  exists ks,
    sorted_unique column = OK (map Some ks) /\
    StronglySorted klt ks /\
    (forall k, In k ks <-> In (Some k) column).
Proof.
  intros Hnone.
  destruct (all_present (unique column)) as [ks0|] eqn:E.
  - pose proof E as Hu. apply all_present_Some in Hu.
    assert (Hin : forall k, In k ks0 <-> In (Some k) column).
    { intros k. rewrite <- unique_In, Hu, in_map_iff. split.
      - intros Hk. exists k. auto.
      - intros (k' & [= ->] & Hk). exact Hk. }
    unfold sorted_unique. destruct (List.length (unique column) <=? 1)%nat eqn:El.
    + exists ks0. split; [now rewrite Hu|]. split; [|exact Hin].
      apply Nat.leb_le in El. rewrite Hu, length_map in El.
      destruct ks0 as [|k [|k' ks0]]; simpl in El; try lia;
        repeat constructor.
    + rewrite E. exists (sort_unique ks0). split; [reflexivity|].
      split; [apply sort_unique_sorted|].
      intros k. now rewrite sort_unique_In.
  - apply all_present_None in E. apply (proj1 (unique_In _ _)) in E.
    exact (False_ind _ (Hnone E)).
Qed.

Lemma sorted_unique_present_witness :
  exists ks,
    sorted_unique (map AIRLINE sample_frame) = OK (map Some ks) /\
    StronglySorted klt ks /\
    (forall k, In k ks <-> In (Some k) (map AIRLINE sample_frame)).
Proof.
  apply (@sorted_unique_present string _ (map AIRLINE sample_frame)).
  simpl. intros [H|[H|[H|[]]]]; discriminate.
Defined.

(** X4.  A missing cell next to a present one makes [sorted] fail: the
    comparison of a value with the missing value has no truth value, and
    the script stops with a [TypeError]. *)
Theorem sorted_unique_missing {K} `{Ordered K} (column : list (option K)) :
  In None column ->
  (exists k, In (Some k) column) ->
  sorted_unique column = Raise TypeError.
Proof.
  intros Hnone (k & Hk).
  unfold sorted_unique.
  assert (Hlen : (1 < List.length (unique column))%nat).
  { apply two_distinct_length; [apply unique_NoDup|].
    exists None, (Some k). rewrite !unique_In. repeat split; auto.
    discriminate. }
  destruct (List.length (unique column) <=? 1)%nat eqn:El;
    [apply Nat.leb_le in El; lia|].
  destruct (all_present (unique column)) as [ks|] eqn:E; [|reflexivity].
  apply all_present_Some in E.
  apply (proj2 (unique_In _ _)) in Hnone. rewrite E in Hnone.
  apply in_map_iff in Hnone. destruct Hnone as (? & ? & _). discriminate.
Qed.

Lemma sorted_unique_missing_witness :
  sorted_unique [Some 1; None; Some 2] = Raise TypeError.
Proof.
  apply (@sorted_unique_missing Z _ [Some 1; None; Some 2]).
  - simpl. auto.
  - exists 1. simpl. auto.
Defined.

(** X5.  A loaded dataset in which one row has no AIRLINE and another has
    one stops the run at line 41 with a [TypeError]: the title, the row
    count, the preview and the sidebar header are on the page, and no
    control, tab or chart. *)
Theorem run_stops_on_missing_airline {L : Library} parse_int parse_float src
    df airline month :
  load_data parse_int parse_float src default_nrows = OK df ->
  (exists r, In r df /\ AIRLINE r = None) ->
  (exists r, In r df /\ AIRLINE r <> None) ->
  run parse_int parse_float src airline month =
  ([st_title; st_success (List.length df); st_dataframe (firstn 20 df);
    sidebar_header], Raise TypeError).
Proof.
  intros Hload (r1 & Hr1 & Hn) (r2 & Hr2 & Hs).
  unfold run. rewrite Hload.
  rewrite sorted_unique_missing; [reflexivity| |].
  - rewrite <- Hn. now apply in_map.
  - destruct (AIRLINE r2) as [c|] eqn:E; [|congruence].
    exists c. rewrite <- E. now apply in_map.
Qed.

Definition gap_records : list (list string) :=
  [["2015"; "1"; "15"; "AA"; "JFK"; "10"];
   ["2015"; "1"; "16"; "NA"; "LAX"; "3"]]%string.

Lemma run_stops_on_missing_airline_witness :
  exists df,
    load_data decimal_int decimal_float (Csv sample_header gap_records)
              default_nrows = OK df /\
    run (L := plain_library) decimal_int decimal_float
        (Csv sample_header gap_records) (Some "AA"%string) (Some 1) =
    ([st_title; st_success (List.length df); st_dataframe (firstn 20 df);
      sidebar_header], Raise TypeError).
Proof.
  eexists. split; [reflexivity|].
  apply (@run_stops_on_missing_airline plain_library decimal_int decimal_float
           (Csv sample_header gap_records) _ (Some "AA"%string) (Some 1)
           eq_refl).
  - eexists. split; [right; left; reflexivity|reflexivity].
  - eexists. split; [left; reflexivity|discriminate].
Defined.

(** X6.  The month control is the slider exactly when the dataset has two
    rows with different MONTH cells; with a single month (or no row) it is
    the select box. *)
Theorem month_control_is_slider df months :
  sorted_unique (map MONTH df) = OK months ->
  ((1 <? List.length months)%nat = true <->
   exists r1 r2, In r1 df /\ In r2 df /\ MONTH r1 <> MONTH r2).
Proof.
  intros Hs.
  assert (Hlen : List.length months = List.length (unique (map MONTH df))).
  { unfold sorted_unique in Hs.
    destruct (List.length (unique (map MONTH df)) <=? 1)%nat;
      [now injection Hs as <-|].
    destruct (all_present (unique (map MONTH df))) as [ks|] eqn:E;
      [|discriminate].
    injection Hs as <-. apply all_present_Some in E.
    rewrite E, !length_map. apply sort_unique_length.
    pose proof (unique_NoDup (map MONTH df)) as Hnd. rewrite E in Hnd.
    now apply NoDup_map_inv in Hnd. }
  rewrite Nat.ltb_lt, Hlen.
  rewrite (two_distinct_length (unique_NoDup (map MONTH df))).
  split.
  - intros (x & y & Hx & Hy & Hne).
    apply (proj1 (unique_In _ _)) in Hx. apply in_map_iff in Hx.
    apply (proj1 (unique_In _ _)) in Hy. apply in_map_iff in Hy.
    destruct Hx as (r1 & <- & Hr1), Hy as (r2 & <- & Hr2).
    exists r1, r2. auto.
  - intros (r1 & r2 & Hr1 & Hr2 & Hne).
    exists (MONTH r1), (MONTH r2). rewrite !unique_In.
    repeat split; auto using in_map.
Qed.

Lemma month_control_is_slider_witness :
  sorted_unique (map MONTH sample_frame) = OK [Some 1] /\
  ((1 <? List.length [Some 1])%nat = true <->
   exists r1 r2, In r1 sample_frame /\ In r2 sample_frame /\
                 MONTH r1 <> MONTH r2).
Proof.
  split; [reflexivity|].
  apply (@month_control_is_slider sample_frame [Some 1] eq_refl).
Defined.

(** ** The rows behind the box plot (lines 72-74) *)

Lemma counts_in_ranked {L : Library} f e :
  In e (counts f) -> In e (ranked (map ORIGIN_AIRPORT f)).
Proof.
  intros He. apply (Permutation_in _ (ranking_perm (map ORIGIN_AIRPORT f))).
  rewrite counts_split. apply in_or_app. now left.
Qed.

Lemma counts_keys_NoDup {L : Library} f : NoDup (map fst (counts f)).
Proof.
  assert (Hnd : NoDup (map fst (ranking (map ORIGIN_AIRPORT f)))).
  { apply (Permutation_NoDup (l := map fst (ranked (map ORIGIN_AIRPORT f)))).
    - apply Permutation_map. symmetry. apply ranking_perm.
    - apply ranked_NoDup. }
  rewrite counts_split, map_app in Hnd. eapply NoDup_app_l; eassumption.
Qed.

Lemma counts_values {L : Library} f :
  map snd (counts f) =
  map (fun a => occurrences a (map ORIGIN_AIRPORT f)) (map fst (counts f)).
Proof.
  rewrite map_map. apply map_ext_in. intros [a n] Hin.
  apply counts_in_ranked, ranked_In in Hin. simpl. tauto.
Qed.

Lemma occurrences_cons a x column :
  occurrences a (x :: column) =
  ((match x with
    | Some b => if String.eqb b a then 1 else 0
    | None => 0
    end) + occurrences a column)%nat.
Proof.
  unfold occurrences. simpl.
  destruct x as [b|]; [destruct (String.eqb b a)|]; reflexivity.
Qed.

Lemma at_airports_cons a t r :
  at_airports (a :: t) r =
  (match ORIGIN_AIRPORT r with
   | Some b => String.eqb b a
   | None => false
   end) || at_airports t r.
Proof.
  unfold at_airports. now destruct (ORIGIN_AIRPORT r).
Qed.

Lemma at_airports_step a t f :
  ~ In a t ->
  List.length (filter (at_airports (a :: t)) f) =
  (occurrences a (map ORIGIN_AIRPORT f) +
   List.length (filter (at_airports t) f))%nat.
Proof.
  intros Hnotin.
  induction f as [|r f IHf]; [reflexivity|].
  cbn [filter map]. rewrite occurrences_cons, at_airports_cons.
  destruct (ORIGIN_AIRPORT r) as [b|] eqn:Eb.
  - destruct (String.eqb b a) eqn:Eba.
    + apply String.eqb_eq in Eba. subst b.
      assert (Et : at_airports t r = false).
      { unfold at_airports. rewrite Eb.
        destruct (existsb (String.eqb a) t) eqn:Et; [|reflexivity].
        apply existsb_eqb_In in Et. contradiction. }
      rewrite Et. cbn [orb List.length]. rewrite IHf. lia.
    + cbn [orb]. destruct (at_airports t r); cbn [List.length];
        rewrite IHf; lia.
  - cbn [orb]. destruct (at_airports t r); cbn [List.length];
      rewrite IHf; lia.
Qed.

Lemma at_airports_length airports f :
  NoDup airports ->
  List.length (filter (at_airports airports) f) =
  list_sum (map (fun a => occurrences a (map ORIGIN_AIRPORT f)) airports).
Proof.
  induction 1 as [|a t Hnotin Hnd IH].
  - induction f as [|r f IHf]; [reflexivity|].
    cbn [filter]. unfold at_airports at 1. cbn [existsb].
    now destruct (ORIGIN_AIRPORT r).
  - rewrite at_airports_step by assumption. rewrite IH. reflexivity.
Qed.

(** X7.  The rows handed to the box plot are as many as the bars of the
    third tab add up to, and no more than the filtered subset has. *)
Theorem df_top5_row_count {L : Library} df airline month :
  let f := filtered df airline month in
  List.length (df_top5 f (top5_airports (counts f))) =
    list_sum (map snd (counts f)) /\
  (list_sum (map snd (counts f)) <= List.length f)%nat.
Proof.
  intros f.
  assert (E : List.length (df_top5 f (top5_airports (counts f))) =
              list_sum (map snd (counts f))).
  { rewrite df_top5_filter, counts_values. unfold top5_airports.
    apply at_airports_length, counts_keys_NoDup. }
  split; [exact E|].
  rewrite <- E, df_top5_filter. apply filter_length_le.
Qed.

(** X8.  When the filtered subset has at most five distinct origin
    airports, none of its rows with an airport is left out of [df_top5]:
    only the rows whose airport is missing are dropped. *)
Theorem df_top5_keeps_all {L : Library} df airline month :
  let f := filtered df airline month in
  (List.length (appearance (map ORIGIN_AIRPORT f)) <= 5)%nat ->
  df_top5 f (top5_airports (counts f)) =
  filter (fun r => isSome (ORIGIN_AIRPORT r)) f.
Proof.
  intros f Hfew.
  assert (Hall : counts f = ranking (map ORIGIN_AIRPORT f)).
  { unfold counts, nlargest. fold (ranking (map ORIGIN_AIRPORT f)).
    apply firstn_all2.
    rewrite (Permutation_length (ranking_perm (map ORIGIN_AIRPORT f))).
    unfold ranked. now rewrite length_map. }
  rewrite df_top5_filter. apply filter_ext_in. intros r Hr.
  unfold at_airports. destruct (ORIGIN_AIRPORT r) as [a|] eqn:Ea;
    [|reflexivity].
  simpl. apply existsb_eqb_In. unfold top5_airports. rewrite Hall.
  apply (Permutation_in (l := map fst (ranked (map ORIGIN_AIRPORT f)))).
  - apply Permutation_map. symmetry. apply ranking_perm.
  - rewrite ranked_keys. apply appearance_In. rewrite <- Ea. now apply in_map.
Qed.

Lemma df_top5_keeps_all_witness :
  df_top5 (filtered sample_frame (Some "AA"%string) (Some 1))
          (top5_airports
             (counts (L := plain_library)
                     (filtered sample_frame (Some "AA"%string) (Some 1)))) =
  filter (fun r => isSome (ORIGIN_AIRPORT r))
         (filtered sample_frame (Some "AA"%string) (Some 1)).
Proof.
  apply (@df_top5_keeps_all plain_library sample_frame (Some "AA"%string)
           (Some 1)).
  vm_compute. lia.
Defined.

(** ** The loader and its row cap (lines 21-29) *)

Lemma mapM_app_inv {A B} (f : A -> result B) (l1 l2 : list A) (bs : list B) :
  mapM f (l1 ++ l2) = OK bs ->
  exists b1 b2, mapM f l1 = OK b1 /\ mapM f l2 = OK b2 /\ bs = b1 ++ b2.
Proof.
  revert bs. induction l1 as [|a l1 IH]; intros bs; cbn [app mapM].
  - intros E. exists [], bs. auto.
  - destruct (f a) as [b|]; cbn [bind]; [|discriminate].
    destruct (mapM f (l1 ++ l2)) as [bs'|] eqn:E; cbn [bind]; [|discriminate].
    intros [= <-]. destruct (IH bs' eq_refl) as (b1 & b2 & E1 & E2 & ->).
    exists (b :: b1), b2. rewrite E1. cbn [bind]. auto.
Qed.

Lemma mapM_first_failure {A B} (f : A -> result B) (l : list A) :
  forallb (fun a => match f a with OK _ => true | Raise _ => false end) l
  = false ->
  exists a err, In a l /\ f a = Raise err /\ mapM f l = Raise err.
Proof.
  induction l as [|a l IH]; cbn [forallb mapM]; [discriminate|].
  destruct (f a) as [b|err] eqn:Ea; cbn [andb bind].
  - intros Hl. destruct (IH Hl) as (a' & err & Hin & Ha' & Hm).
    exists a', err. rewrite Hm. cbn [bind]. repeat split; auto. now right.
  - intros _. exists a, err. repeat split; auto. now left.
Qed.

Lemma convert_error parse_int parse_float header record err :
  convert parse_int parse_float header record = Raise err ->
  err = ConversionError.
Proof.
  unfold convert, to_Int64, to_float64.
  repeat match goal with
         | |- context [if ?b then _ else _] => destruct b
         | |- context [match parse_int ?s with _ => _ end] =>
             destruct (parse_int s)
         | |- context [match parse_float ?s with _ => _ end] =>
             destruct (parse_float s)
         end; cbn [bind]; intros E; try discriminate;
    injection E as <-; reflexivity.
Qed.

(** X10.  A smaller row cap gives a prefix: when the load succeeds with a
    cap [M], it succeeds with every cap [N] between 0 and [M], and the rows
    it returns with [N] are the first rows of those it returns with [M]. *)
Theorem load_data_prefix parse_int parse_float header records N M dfM :
  0 <= N <= M ->
  load_data parse_int parse_float (Csv header records) M = OK dfM ->
  exists dfN rest,
    load_data parse_int parse_float (Csv header records) N = OK dfN /\
    dfM = dfN ++ rest.
Proof.
  intros [HN HNM]. unfold load_data, read_csv.
  destruct (M <? 0) eqn:EM; [apply Z.ltb_lt in EM; lia|].
  destruct (N <? 0) eqn:EN; [apply Z.ltb_lt in EN; lia|].
  destruct (missing_columns header); cbn [bind]; [|discriminate].
  destruct (mapM (convert parse_int parse_float header)
              (firstn (Z.to_nat M) records)) as [rowsM|] eqn:Em;
    cbn [bind]; [|discriminate].
  intros [= <-].
  rewrite <- (firstn_skipn (Z.to_nat N) (firstn (Z.to_nat M) records)) in Em.
  rewrite firstn_firstn, Nat.min_l in Em by lia.
  apply mapM_app_inv in Em. destruct Em as (b1 & b2 & E1 & _ & ->).
  rewrite E1. cbn [bind]. rewrite filter_app. eauto.
Qed.

Lemma load_data_prefix_witness :
  exists dfN rest,
    load_data decimal_int decimal_float (Csv sample_header sample_records) 2
    = OK dfN /\
    sample_frame = dfN ++ rest.
Proof.
  apply (@load_data_prefix decimal_int decimal_float sample_header
           sample_records 2 4 sample_frame); [lia|reflexivity].
Defined.

(** X11.  One field within the cap that is neither missing nor a number of
    the declared kind (an integer of 64 bits for MONTH and DAY), in MONTH,
    DAY or DEPARTURE_DELAY, fails the whole load with the conversion error of
    [read_csv]: no row is skipped and no table is returned. *)
Theorem load_data_bad_field parse_int parse_float header records N :
  0 <= N ->
  missing_columns header = [] ->
  forallb (convertible parse_int parse_float header)
          (firstn (Z.to_nat N) records) = false ->
  load_data parse_int parse_float (Csv header records) N =
  Raise ConversionError.
Proof.
  intros HN Hcols Hbad. unfold load_data, read_csv.
  rewrite Hcols.
  destruct (N <? 0) eqn:EN; [apply Z.ltb_lt in EN; lia|].
  destruct (mapM_first_failure (convert parse_int parse_float header) _ Hbad)
    as (record & err & _ & Hrec & Hm).
  rewrite Hm. cbn [bind].
  now rewrite (convert_error _ _ _ _ Hrec).
Qed.

Lemma load_data_bad_field_witness :
  load_data decimal_int decimal_float
    (Csv sample_header
         [["2015"; "1"; "15"; "AA"; "JFK"; "10"];
          ["2015"; "Jan"; "15"; "AA"; "JFK"; "10"]]%string) 2 =
  Raise ConversionError.
Proof.
  apply (@load_data_bad_field decimal_int decimal_float sample_header
           [["2015"; "1"; "15"; "AA"; "JFK"; "10"];
            ["2015"; "Jan"; "15"; "AA"; "JFK"; "10"]]%string 2);
    [lia|reflexivity|reflexivity].
Defined.

(** ** An empty selection (lines 50-73, 120-128) *)

Lemma exec_body_initial {L : Library} df airline month :
  exists e,
    Script.exec Script.body (Script.initial df airline month) = OK e /\
    Script.var_counts e = Some (counts (filtered df airline month)).
Proof.
  unfold Script.body. rewrite assign_filtered_twice.
  change (Script.assign_filtered :: Script.derived_tables)
    with Script.body_once.
  rewrite exec_body_once_initial.
  destruct (@exec_derived_tables L
              (Script.mkEnv df airline month
                 (Some (filtered df airline month))
                 None None None None None None None None)
              (filtered df airline month) eq_refl)
    as (e & Hexec & _ & _ & _ & _ & _ & _ & Hc & _).
  exists e. split; assumption.
Qed.

(** X12.  When the dataset loads and the options of both controls sort,
    but no row has the carrier and the month that were chosen, the run ends
    inside the third tab: [counts] is empty, [px.bar] at line 122 raises a
    [ValueError], and the page stops after the charts of the first two tabs;
    the other tabs, the sixth with its warning among them, are not reached. *)
Theorem run_stops_on_empty_selection {L : Library} parse_int parse_float src
    df airlines months c m :
  load_data parse_int parse_float src default_nrows = OK df ->
  sorted_unique (map AIRLINE df) = OK airlines ->
  sorted_unique (map MONTH df) = OK months ->
  (forall r, In r df -> ~ (AIRLINE r = Some c /\ MONTH r = Some m)) ->
  run parse_int parse_float src (Some c) (Some m) =
  ([st_title; st_success (List.length df); st_dataframe (firstn 20 df);
    sidebar_header; sidebar_airline airlines;
    sidebar_month (1 <? List.length months)%nat months;
    st_tabs; st_plotly_chart 0; st_plotly_chart 1],
   Raise ValueError_plot).
Proof.
  intros Hload Ha Hm Hnone.
  assert (Hf : filtered df (Some c) (Some m) = []).
  { rewrite filtered_filter.
    destruct (filter (selected c m) df) as [|r l] eqn:E; [reflexivity|].
    assert (Hin : In r (filter (selected c m) df)) by (rewrite E; now left).
    apply filter_In in Hin. destruct Hin as [Hin Hs].
    apply selected_true in Hs. exfalso. exact (Hnone r Hin Hs). }
  destruct (exec_body_initial df (Some c) (Some m)) as (e & Hexec & Hc).
  rewrite Hf, counts_nil in Hc.
  unfold run. rewrite Hload, Ha, Hm, Hexec.
  unfold tabs. rewrite Hc. reflexivity.
Qed.

Lemma run_stops_on_empty_selection_witness :
  snd (run (L := plain_library) decimal_int decimal_float
           (Csv sample_header sample_records)
           (Some "AA"%string) (Some 2)) = Raise ValueError_plot.
Proof.
  rewrite (@run_stops_on_empty_selection plain_library decimal_int
             decimal_float (Csv sample_header sample_records)
             (sample_frame ++
              [mkRow (Some 2) (Some 3) (Some "UA"%string) (Some "SFO"%string)
                     (Some 7%float)])
             [Some "AA"%string; Some "UA"%string] [Some 1; Some 2]
             "AA"%string 2).
  - reflexivity.
  - reflexivity.
  - reflexivity.
  - reflexivity.
  - intros r Hr [Ha Hm].
    simpl in Hr. destruct Hr as [<-|[<-|[<-|[<-|[]]]]]; discriminate.
Defined.

(** ** How the views relate (lines 65-84) *)

(** X13.  Every day that heads a column of the heat map is a day of the
    trend table: the matrix is built from rows of the filtered subset. *)
Theorem heat_days_are_trend_days {L : Library} df airline month :
  let f := filtered df airline month in
  exists pt,
    heat_pivot (heat (df_top5 f (top5_airports (counts f)))) = OK pt /\
    (forall d, In d (columns pt) -> In d (map fst (trend f))) /\
    (List.length (columns pt) <= List.length (trend f))%nat.
Proof.
  intros f. eexists. split; [apply heat_pivot_heat|]. cbn [columns].
  set (rows := df_top5 f (top5_airports (counts f))).
  assert (Hsub : forall d,
             In d (sort_unique (map (fun e => snd (fst e)) (heat rows))) ->
             In d (map fst (trend f))).
  { intros d Hd. apply sort_unique_In, in_map_iff in Hd.
    destruct Hd as ([[a d'] v] & Ed & He). simpl in Ed. subst d'.
    apply (in_map fst) in He. apply heat_key in He.
    destruct He as (r & Hr & _ & Hday).
    apply (groupby_mean_key_iff DAY f d). exists r. split; [|assumption].
    unfold rows in Hr. rewrite df_top5_filter in Hr.
    apply filter_In in Hr. tauto. }
  split; [exact Hsub|].
  rewrite <- (length_map fst (trend f)).
  apply NoDup_incl_length; [|exact Hsub].
  exact (sorted_NoDup (sort_unique_sorted _)).
Qed.
